(** * Verification of [process_jsonl] (twitter_data_processing.py)

    The aggregation loop of [src/twitter_data_processing.py] is embedded as a
    state-and-exception computation over the six accumulators of the source.
    The JSON decoder [json.loads] is a library function: it is a parameter of
    the development.  [datetime.strptime] is modelled for the one format the
    source uses, ['%Y-%m-%dT%H:%M:%S.%fZ'], following CPython's
    [Lib/_strptime.py].  Text is ASCII [string].  The writers and [main] are
    embedded as the calls they make on the outside world, in order; the
    iteration order of sets and dictionaries, [str] of a stored object and
    the rendering of [%Y] are parameters. *)

From Stdlib Require Import Ascii String QArith Qcanon.
From stdpp Require Import gmap strings list fin_maps pretty countable lexico orders sorting.

Local Open Scope string_scope.
Local Open Scope Z_scope.

(** ** Python values produced by [json.loads] *)

(** A Python [float], by its value: the program only tests floats for
    truthiness and uses them as set members and dictionary keys, and both
    depend on the value alone. *)
Inductive pyfloat : Type :=
| FNaN
| FInf (negative : bool)
| FFinite (value : Qc).

#[warnings="-register-all"]
Inductive pyval : Type :=
| PNone
| PBool (b : bool)
| PInt (n : Z)
| PFloat (x : pyfloat)
| PStr (s : string)
| PList (xs : list pyval)
| PDict (d : gmap string pyval).

(** [bool(v)]: the truth value Python's [if] and [and] test. *)
Definition truthy (v : pyval) : bool :=
  match v with
  | PNone => false
  | PBool b => b
  | PInt n => negb (n =? 0)
  | PFloat FNaN => true
  | PFloat (FInf _) => true
  | PFloat (FFinite q) => negb (bool_decide (q = 0%Qc))
  | PStr s => match s with EmptyString => false | String _ _ => true end
  | PList xs => match xs with [] => false | _ :: _ => true end
  | PDict d => negb (bool_decide (d = ∅))
  end.

(** [d.get(k)]: the value bound to [k], [None] when there is none. *)
Definition dict_get (d : gmap string pyval) (k : string) : pyval :=
  default PNone (d !! k).

(** Members of a Python [set] and keys of a [dict] are identified up to
    [==] (with equal hashes): [True == 1 == 1.0], a string equals only the
    same string, and the one [NaN] object the decoder hands out is found again
    by identity.  [pykey] is the canonical form of a hashable value. *)
Inductive pykey : Type :=
| KNone
| KStr (s : string)
| KNum (q : Qc)
| KInf (negative : bool)
| KNaN.

(** [hash(v)] succeeds on [None], [bool], [int], [float] and [str]; a [list]
    or a [dict] is unhashable ([TypeError]). *)
Definition py_hash (v : pyval) : option pykey :=
  match v with
  | PNone => Some KNone
  | PBool b => Some (KNum (Q2Qc (inject_Z (if b then 1 else 0))))
  | PInt n => Some (KNum (Q2Qc (inject_Z n)))
  | PFloat FNaN => Some KNaN
  | PFloat (FInf s) => Some (KInf s)
  | PFloat (FFinite q) => Some (KNum q)
  | PStr s => Some (KStr s)
  | PList _ => None
  | PDict _ => None
  end.

#[global] Instance pykey_eq_dec : EqDecision pykey.
Proof. solve_decision. Defined.

Definition pykey_to_sum (k : pykey) : unit + string + Qc + bool + unit :=
  match k with
  | KNone => inl (inl (inl (inl tt)))
  | KStr s => inl (inl (inl (inr s)))
  | KNum q => inl (inl (inr q))
  | KInf b => inl (inr b)
  | KNaN => inr tt
  end.

Definition pykey_of_sum (x : unit + string + Qc + bool + unit) : pykey :=
  match x with
  | inl (inl (inl (inl _))) => KNone
  | inl (inl (inl (inr s))) => KStr s
  | inl (inl (inr q)) => KNum q
  | inl (inr b) => KInf b
  | inr _ => KNaN
  end.

#[global] Instance pykey_countable : Countable pykey.
Proof.
  refine (inj_countable' pykey_to_sum pykey_of_sum _).
  intros []; reflexivity.
Defined.

(** ** [datetime] and [strptime] *)

Record datetime : Type := mk_datetime {
  year : Z;
  month : Z;
  day : Z;
  hour : Z;
  minute : Z;
  second : Z;
  microsecond : Z
}.

(** Naive [datetime] objects compare as the tuples of their fields. *)
Definition dt_fields (d : datetime) : Z * Z * Z * Z * Z * Z * Z :=
  (year d, month d, day d, hour d, minute d, second d, microsecond d).

Definition dt_lt (a b : datetime) : Prop :=
  lexico (dt_fields a) (dt_fields b).

(** [a < b] on datetimes. *)
Definition dt_ltb (a b : datetime) : bool := bool_decide (dt_lt a b).

(** [a <= b] on datetimes. *)
Definition dt_le (a b : datetime) : Prop := dt_lt a b ∨ a = b.

Definition is_leap (y : Z) : bool :=
  (y mod 4 =? 0) && (negb (y mod 100 =? 0) || (y mod 400 =? 0)).

Definition days_in_month (y m : Z) : Z :=
  if m =? 2 then (if is_leap y then 29 else 28)
  else if (m =? 4) || (m =? 6) || (m =? 9) || (m =? 11) then 30
  else 31.

(** The [datetime(...)] constructor: [None] is its [ValueError] for a field
    out of range. *)
Definition datetime_new (y m d H M S us : Z) : option datetime :=
  if (1 <=? y) && (y <=? 9999) && (1 <=? m) && (m <=? 12)
     && (1 <=? d) && (d <=? days_in_month y m)
     && (0 <=? H) && (H <=? 23) && (0 <=? M) && (M <=? 59)
     && (0 <=? S) && (S <=? 59) && (0 <=? us) && (us <=? 999999)
  then Some (mk_datetime y m d H M S us)
  else None.

(** *** The regular expression [_strptime] compiles the format to

    A matcher returns, in the order a backtracking engine tries them, the
    ways its pattern matches a prefix of the text: the matched text and the
    rest. *)
Definition matcher : Type := string → list (string * string).

Definition char_between (lo hi c : ascii) : bool :=
  (nat_of_ascii lo <=? nat_of_ascii c)%nat && (nat_of_ascii c <=? nat_of_ascii hi)%nat.

Definition re_range (lo hi : ascii) : matcher := λ s,
  match s with
  | String c r => if char_between lo hi c then [(String c EmptyString, r)] else []
  | EmptyString => []
  end.

Definition re_chr (c : ascii) : matcher := re_range c c.

Definition re_digit : matcher := re_range "0" "9".

Definition re_seq (a b : matcher) : matcher := λ s,
  '(x, r) ← a s; '(y, r') ← b r; [(x +:+ y, r')].

Definition re_alt (a b : matcher) : matcher := λ s, (a s ++ b s)%list.

Definition re_empty : matcher := λ s, [(EmptyString, s)].

(** Greedy [p{0,n}]. *)
Fixpoint re_upto (n : nat) (p : matcher) : matcher :=
  match n with
  | O => re_empty
  | S n' => re_alt (re_seq p (re_upto n' p)) re_empty
  end.

(** The format is compiled with [re.IGNORECASE]: a letter of the format
    matches in either case. *)
Definition re_letter (upper lower : ascii) : matcher :=
  re_alt (re_chr upper) (re_chr lower).

(** [%Y]: [\d\d\d\d]. *)
Definition re_Y : matcher :=
  re_seq re_digit (re_seq re_digit (re_seq re_digit re_digit)).

(** [%m]: [1[0-2]|0[1-9]|[1-9]]. *)
Definition re_m : matcher :=
  re_alt (re_seq (re_chr "1") (re_range "0" "2"))
    (re_alt (re_seq (re_chr "0") (re_range "1" "9")) (re_range "1" "9")).

(** [%d]: [3[0-1]|[1-2]\d|0[1-9]|[1-9]| [1-9]]. *)
Definition re_d : matcher :=
  re_alt (re_seq (re_chr "3") (re_range "0" "1"))
    (re_alt (re_seq (re_range "1" "2") re_digit)
      (re_alt (re_seq (re_chr "0") (re_range "1" "9"))
        (re_alt (re_range "1" "9") (re_seq (re_chr " ") (re_range "1" "9"))))).

(** [%H]: [2[0-3]|[0-1]\d|\d]. *)
Definition re_H : matcher :=
  re_alt (re_seq (re_chr "2") (re_range "0" "3"))
    (re_alt (re_seq (re_range "0" "1") re_digit) re_digit).

(** [%M]: [[0-5]\d|\d]. *)
Definition re_M : matcher :=
  re_alt (re_seq (re_range "0" "5") re_digit) re_digit.

(** [%S]: [6[0-1]|[0-5]\d|\d]. *)
Definition re_S : matcher :=
  re_alt (re_seq (re_chr "6") (re_range "0" "1"))
    (re_alt (re_seq (re_range "0" "5") re_digit) re_digit).

(** [%f]: [[0-9]{1,6}]. *)
Definition re_f : matcher := re_seq re_digit (re_upto 5 re_digit).

(** The groups of ['%Y-%m-%dT%H:%M:%S.%fZ'], for each way the whole pattern
    matches a prefix of the text, with the text left over. *)
Definition strptime_regex (s : string)
  : list (string * string * string * string * string * string * string * string) :=
  '(gY, r) ← re_Y s;
  '(_, r) ← re_chr "-" r;
  '(gm, r) ← re_m r;
  '(_, r) ← re_chr "-" r;
  '(gd, r) ← re_d r;
  '(_, r) ← re_letter "T" "t" r;
  '(gH, r) ← re_H r;
  '(_, r) ← re_chr ":" r;
  '(gM, r) ← re_M r;
  '(_, r) ← re_chr ":" r;
  '(gS, r) ← re_S r;
  '(_, r) ← re_chr "." r;
  '(gf, r) ← re_f r;
  '(_, r) ← re_letter "Z" "z" r;
  [(gY, gm, gd, gH, gM, gS, gf, r)].

(** [int(s)] on a group of the regular expression: decimal digits, after
    the blank the day group may start with. *)
Definition py_int (s : string) : Z :=
  fold_left (λ acc c, if char_between "0" "9" c
                      then 10 * acc + (Z.of_nat (nat_of_ascii c) - 48)
                      else acc)
            (list_ascii_of_string s) 0.

(** [s += "0" * (6 - len(s))]: the fraction group padded on the right. *)
Definition pad_fraction (s : string) : string :=
  s +:+ string_of_list_ascii (replicate (6 - String.length s) "0"%char).

(** [datetime.strptime(s, '%Y-%m-%dT%H:%M:%S.%fZ')] on a [str]; [None] is
    its [ValueError]: the text does not match, text is left after the
    match, or a field is out of range. *)
Definition strptime (s : string) : option datetime :=
  match strptime_regex s with
  | [] => None
  | (gY, gm, gd, gH, gM, gS, gf, rest) :: _ =>
      match rest with
      | String _ _ => None
      | EmptyString =>
          datetime_new (py_int gY) (py_int gm) (py_int gd)
                       (py_int gH) (py_int gM) (py_int gS)
                       (py_int (pad_fraction gf))
      end
  end.

(** [f"{n:02d}"]: decimal, padded with zeros to width two. *)
Definition format_02d (n : Z) : string :=
  if (0 <=? n) && (n <? 10) then "0" +:+ pretty n else pretty n.

(** [f"tweet_ids_{date.year}_{date.month:02d}"]. *)
Definition month_key_of (date : datetime) : string :=
  "tweet_ids_" +:+ pretty (year date) +:+ "_" +:+ format_02d (month date).


(** ** The aggregation loop *)

Inductive exn : Type :=
| JSONDecodeError
| KeyError
| ValueError
| TypeError
| AttributeError.

(** The local variables of [process_jsonl]; the function returns them as a
    tuple, in this order. *)
Record stats : Type := mk_stats {
  monthly_tweets : gmap string (gset pykey);
  total_tweets : nat;
  unique_authors : gset pykey;
  tweets_by_language : gmap pykey nat;
  first_tweet_date : option datetime;
  last_tweet_date : option datetime
}.

(** Lines 23-28. *)
Definition initial_stats : stats :=
  mk_stats ∅ 0%nat ∅ ∅ None None.

Inductive outcome (A : Type) : Type :=
| Done (a : A)
| Raised (e : exn).
Arguments Done {A} a.
Arguments Raised {A} e.

(** Statements run on the local variables and may raise; what was assigned
    before an exception stays assigned. *)
Definition M (A : Type) : Type := stats → outcome A * stats.

#[global] Instance M_ret : MRet M := λ A a st, (Done a, st).

#[global] Instance M_bind : MBind M := λ A B f m st,
  match m st with
  | (Done a, st') => f a st'
  | (Raised e, st') => (Raised e, st')
  end.

Definition raise {A : Type} (e : exn) : M A := λ st, (Raised e, st).

Definition modify (f : stats → stats) : M unit := λ st, (Done tt, f st).

Definition when (b : bool) (m : M unit) : M unit :=
  if b then m else mret tt.

Definition set_monthly_tweets (m : gmap string (gset pykey)) (st : stats) : stats :=
  mk_stats m (total_tweets st) (unique_authors st) (tweets_by_language st)
           (first_tweet_date st) (last_tweet_date st).

Definition set_total_tweets (n : nat) (st : stats) : stats :=
  mk_stats (monthly_tweets st) n (unique_authors st) (tweets_by_language st)
           (first_tweet_date st) (last_tweet_date st).

Definition set_unique_authors (a : gset pykey) (st : stats) : stats :=
  mk_stats (monthly_tweets st) (total_tweets st) a (tweets_by_language st)
           (first_tweet_date st) (last_tweet_date st).

Definition set_tweets_by_language (c : gmap pykey nat) (st : stats) : stats :=
  mk_stats (monthly_tweets st) (total_tweets st) (unique_authors st) c
           (first_tweet_date st) (last_tweet_date st).

Definition set_first_tweet_date (d : option datetime) (st : stats) : stats :=
  mk_stats (monthly_tweets st) (total_tweets st) (unique_authors st)
           (tweets_by_language st) d (last_tweet_date st).

Definition set_last_tweet_date (d : option datetime) (st : stats) : stats :=
  mk_stats (monthly_tweets st) (total_tweets st) (unique_authors st)
           (tweets_by_language st) (first_tweet_date st) d.

(** [tweet.get]: only a [dict] has the attribute. *)
Definition attr_get (tweet : pyval) : M (gmap string pyval) :=
  match tweet with
  | PDict d => mret d
  | _ => raise AttributeError
  end.

(** [datetime.strptime(created_at, ...)]: [TypeError] unless [created_at] is
    a [str], [ValueError] when it does not parse. *)
Definition py_strptime (created_at : pyval) : M datetime :=
  match created_at with
  | PStr s =>
      match strptime s with
      | Some date => mret date
      | None => raise ValueError
      end
  | _ => raise TypeError
  end.

(** Hashing a value about to enter a set or index a dictionary. *)
Definition hashed (v : pyval) : M pykey :=
  match py_hash v with
  | Some k => mret k
  | None => raise TypeError
  end.

(** Lines 42-43. *)
Definition update_first (date : datetime) (st : stats) : stats :=
  match first_tweet_date st with
  | None => set_first_tweet_date (Some date) st
  | Some first => if dt_ltb date first then set_first_tweet_date (Some date) st else st
  end.

(** Lines 44-45; [date > last] is [last < date]. *)
Definition update_last (date : datetime) (st : stats) : stats :=
  match last_tweet_date st with
  | None => set_last_tweet_date (Some date) st
  | Some last => if dt_ltb last date then set_last_tweet_date (Some date) st else st
  end.

(** [monthly_tweets.setdefault(month_key, set())]. *)
Definition setdefault_month (month_key : string) (st : stats) : stats :=
  match monthly_tweets st !! month_key with
  | Some _ => st
  | None => set_monthly_tweets (<[month_key := ∅]> (monthly_tweets st)) st
  end.

(** [.add(tweet_id)] on the set bound to [month_key]. *)
Definition add_to_month (month_key : string) (k : pykey) (st : stats) : stats :=
  set_monthly_tweets
    (<[month_key := {[k]} ∪ default ∅ (monthly_tweets st !! month_key)]> (monthly_tweets st))
    st.

(** [tweets_by_language[lang] += 1] on a [Counter]: a missing key counts 0. *)
Definition count_language (k : pykey) (st : stats) : stats :=
  set_tweets_by_language
    (<[k := S (default 0%nat (tweets_by_language st !! k))]> (tweets_by_language st))
    st.

Section Aggregator.

(** [json.loads] on a line: the decoded value, or [None] for its
    [JSONDecodeError]. *)
Variable json_loads : string → option pyval.

Definition loads (line : string) : M pyval :=
  match json_loads line with
  | Some tweet => mret tweet
  | None => raise JSONDecodeError
  end.

(** Lines 33-56: the body of the [try]. *)
Definition try_body (line : string) : M unit :=
  tweet ← loads line;
  d ← attr_get tweet;
  let tweet_id := dict_get d "id" in
  let created_at := dict_get d "created_at" in
  let author_id := dict_get d "author_id" in
  let lang := dict_get d "lang" in
  when (truthy tweet_id && truthy created_at) (
    date ← py_strptime created_at;
    modify (update_first date);;
    modify (update_last date);;
    let month_key := month_key_of date in
    modify (setdefault_month month_key);;
    k ← hashed tweet_id;
    modify (add_to_month month_key k);;
    modify (λ st, set_total_tweets (total_tweets st + 1)%nat st);;
    when (truthy author_id) (
      a ← hashed author_id;
      modify (λ st, set_unique_authors ({[a]} ∪ unique_authors st) st));;
    when (truthy lang) (
      l ← hashed lang;
      modify (count_language l))).

(** What one iteration leaves behind: the text given to [print], the local
    variables, and the exception that leaves the loop, if any. *)
Record step : Type := mk_step {
  printed : list string;
  locals : stats;
  escaped : option exn
}.

(** Lines 32-61: one iteration, with the two [except] clauses. *)
Definition iteration (line : string) (st : stats) : step :=
  match try_body line st with
  | (Done _, st') => mk_step [] st' None
  | (Raised JSONDecodeError, st') =>
      mk_step ["Skipping invalid JSON line: " +:+ line] st' None
  | (Raised KeyError, st') =>
      mk_step ["Skipping tweet with missing required fields: " +:+ line] st' None
  | (Raised e, st') => mk_step [] st' (Some e)
  end.

(** The result of a run: what was printed, and the tuple returned or the
    exception raised. *)
Record run : Type := mk_run {
  stdout : list string;
  returned : outcome stats
}.

(** Lines 31-63: the loop over the lines, then [return]. *)
Fixpoint for_lines (lines : list string) (st : stats) : run :=
  match lines with
  | [] => mk_run [] (Done st)
  | line :: rest =>
      let s := iteration line st in
      match escaped s with
      | Some e => mk_run (printed s) (Raised e)
      | None =>
          let r := for_lines rest (locals s) in
          mk_run (printed s ++ stdout r) (returned r)
      end
  end.

(** [process_jsonl] on the lines of the file. *)
Definition process_jsonl (lines : list string) : run :=
  for_lines lines initial_stats.

End Aggregator.

(** ** Notions the statements use *)

(** What an included line contributes: the hashed [id], the parsed date, and
    the hashed [author_id] and [lang] when they are truthy. *)
Record tweet : Type := mk_tweet {
  tw_id : pykey;
  tw_date : datetime;
  tw_author : option pykey;
  tw_lang : option pykey
}.

(** The combined effect of lines 42-56 for one included line. *)
Definition include (t : tweet) (st : stats) : stats :=
  let key := month_key_of (tw_date t) in
  mk_stats
    (<[key := {[tw_id t]} ∪ default ∅ (monthly_tweets st !! key)]> (monthly_tweets st))
    (S (total_tweets st))
    (match tw_author t with
     | Some a => {[a]} ∪ unique_authors st
     | None => unique_authors st
     end)
    (match tw_lang t with
     | Some l => <[l := S (default 0%nat (tweets_by_language st !! l))]> (tweets_by_language st)
     | None => tweets_by_language st
     end)
    (match first_tweet_date st with
     | None => Some (tw_date t)
     | Some first => if dt_ltb (tw_date t) first then Some (tw_date t) else Some first
     end)
    (match last_tweet_date st with
     | None => Some (tw_date t)
     | Some last => if dt_ltb last (tw_date t) then Some (tw_date t) else Some last
     end).

(** How an iteration ends, as a function of the line alone. *)
Inductive line_kind : Type :=
| Invalid
| Skipped
| Included (t : tweet)
| Fails (e : exn).

(** The iteration a kind of line stands for, from the local variables
    [st]; when it fails the loop is left and the variables are dropped. *)
Definition step_of (line : string) (st : stats) (k : line_kind) : step :=
  match k with
  | Invalid => mk_step ["Skipping invalid JSON line: " +:+ line] st None
  | Skipped => mk_step [] st None
  | Included t => mk_step [] (include t st) None
  | Fails e => mk_step [] st (Some e)
  end.

(** A field that is used only when truthy: [Some None] when it is falsy,
    [None] when it is truthy and unhashable. *)
Definition optional_key (v : pyval) : option (option pykey) :=
  if truthy v then
    match py_hash v with
    | Some k => Some (Some k)
    | None => None
    end
  else Some None.

(** Both dates are unset before the first included line; afterwards both are
    set and ordered. *)
Definition dates_ordered (st : stats) : Prop :=
  match first_tweet_date st, last_tweet_date st with
  | None, None => total_tweets st = 0%nat
  | Some first, Some last => dt_le first last
  | _, _ => False
  end.

(** All identifiers held by the month buckets. *)
Definition bucket_union (m : gmap string (gset pykey)) : gset pykey :=
  ⋃ (map_to_list m).*2.

(** The month buckets hold as many identifiers as were counted, and no
    identifier is in two of them. *)
Definition partitioned (st : stats) : Prop :=
  (∀ key1 key2 bucket1 bucket2 x,
     monthly_tweets st !! key1 = Some bucket1 →
     monthly_tweets st !! key2 = Some bucket2 →
     x ∈ bucket1 → x ∈ bucket2 → key1 = key2)
  ∧ size (bucket_union (monthly_tweets st)) = total_tweets st.

Section Views.

Variable json_loads : string → option pyval.

(** The test of line 39 on a line that decodes to a JSON object. *)
Definition has_required (line : string) : bool :=
  match json_loads line with
  | Some (PDict d) => truthy (dict_get d "id") && truthy (dict_get d "created_at")
  | _ => false
  end.

Definition kind_of (line : string) : line_kind :=
  match json_loads line with
  | None => Invalid
  | Some (PDict d) =>
      if truthy (dict_get d "id") && truthy (dict_get d "created_at") then
        match dict_get d "created_at" with
        | PStr s =>
            match strptime s, py_hash (dict_get d "id"),
                  optional_key (dict_get d "author_id"),
                  optional_key (dict_get d "lang") with
            | None, _, _, _ => Fails ValueError
            | Some date, Some k, Some a, Some l => Included (mk_tweet k date a l)
            | Some _, _, _, _ => Fails TypeError
            end
        | _ => Fails TypeError
        end
      else Skipped
  | Some _ => Fails AttributeError
  end.

(** [created_at] is a string in the format of line 41. *)
Definition parses (created_at : pyval) : Prop :=
  ∃ s date, created_at = PStr s ∧ strptime s = Some date.

(** A line that is a valid JSON object and whose timestamp, if the line
    passes the test of line 39, parses. *)
Definition valid_line (line : string) : Prop :=
  ∃ d, json_loads line = Some (PDict d)
       ∧ (truthy (dict_get d "id") && truthy (dict_get d "created_at") = true →
          parses (dict_get d "created_at")).

(** The fields that enter a set or index a dictionary are hashable when
    they are used (strings and numbers are). *)
Definition hashable_fields (line : string) : Prop :=
  ∀ d, json_loads line = Some (PDict d) →
       ∀ field, field ∈ ["id"; "author_id"; "lang"] →
                truthy (dict_get d field) = true → is_Some (py_hash (dict_get d field)).

(** The lines on which the loop is left by an exception. *)
Definition fails (line : string) : Prop :=
  ∃ e, kind_of line = Fails e.

(** The included lines of an input, in order. *)
Definition included (lines : list string) : list tweet :=
  omap (λ line, match kind_of line with Included t => Some t | _ => None end) lines.

End Views.

(** ** Sample input *)

Definition dquote : string := String "034"%char EmptyString.
Definition newline : string := String "010"%char EmptyString.

Definition quoted (s : string) : string := dquote +:+ s +:+ dquote.

(** The text of a JSON object whose values are strings, as one line of a
    JSONL file. *)
Fixpoint members_text (ms : list (string * string)) : string :=
  match ms with
  | [] => EmptyString
  | (k, v) :: rest =>
      quoted k +:+ ":" +:+ quoted v +:+
      match rest with
      | [] => EmptyString
      | _ :: _ => "," +:+ members_text rest
      end
  end.

Definition object_line (ms : list (string * string)) : string :=
  "{" +:+ members_text ms +:+ "}" +:+ newline.

Definition object_value (ms : list (string * string)) : pyval :=
  PDict (list_to_map (prod_map id PStr <$> ms)).

Definition tweet_april : list (string * string) :=
  [("id", "1"); ("created_at", "2023-04-01T12:00:00.000000Z");
   ("author_id", "a"); ("lang", "en")].

Definition retweet_may : list (string * string) :=
  [("id", "1"); ("created_at", "2023-05-02T08:30:00.000000Z");
   ("author_id", "a"); ("lang", "en")].

Definition tweet_june : list (string * string) :=
  [("id", "2"); ("created_at", "2023-06-03T09:15:30.250000Z");
   ("author_id", "b"); ("lang", "fr")].

Definition tweet_bad_date : list (string * string) :=
  [("id", "3"); ("created_at", "not-a-date")].

Definition tweet_no_date : list (string * string) :=
  [("id", "4")].

Definition tweet_year_999 : list (string * string) :=
  [("id", "5"); ("created_at", "0999-04-01T12:00:00.000000Z")].

(** What the three complete sample lines contribute. *)
Definition included_april : tweet :=
  mk_tweet (KStr "1") (mk_datetime 2023 4 1 12 0 0 0) (Some (KStr "a")) (Some (KStr "en")).

Definition included_may : tweet :=
  mk_tweet (KStr "1") (mk_datetime 2023 5 2 8 30 0 0) (Some (KStr "a")) (Some (KStr "en")).

Definition included_june : tweet :=
  mk_tweet (KStr "2") (mk_datetime 2023 6 3 9 15 30 250000) (Some (KStr "b")) (Some (KStr "fr")).

Definition garbage_line : string := "not json" +:+ newline.

Definition sample_objects : list (list (string * string)) :=
  [tweet_april; retweet_may; tweet_june; tweet_bad_date; tweet_no_date;
   tweet_year_999].

(** [json.loads] on the sample lines: the object a sample line was written
    from, and [JSONDecodeError] on other text. *)
Definition sample_loads (line : string) : option pyval :=
  match list_find (λ ms, object_line ms = line) sample_objects with
  | Some (_, ms) => Some (object_value ms)
  | None => None
  end.

(** ** Further notions and sample input *)

(** The sum of the counts of a [Counter]. *)
Definition language_total (c : gmap pykey nat) : nat :=
  map_fold (λ _ n acc, (n + acc)%nat) 0%nat c.

(** The text line 59 prints for a line. *)
Definition invalid_json_diagnostic (line : string) : string :=
  "Skipping invalid JSON line: " +:+ line.

(** Lines that are valid JSON but not what the loop expects: a number, an
    object whose [id] is an array, and an object whose [created_at] is a
    number. *)
Definition number_line : string := "5" +:+ newline.

Definition array_id_line : string :=
  "{" +:+ quoted "id" +:+ ":[1]," +:+ quoted "created_at" +:+ ":"
  +:+ quoted "2023-04-01T12:00:00.000000Z" +:+ "}" +:+ newline.

Definition numeric_date_line : string :=
  "{" +:+ quoted "id" +:+ ":" +:+ quoted "6" +:+ "," +:+ quoted "created_at"
  +:+ ":20230401}" +:+ newline.

(** [json.loads] on these three lines, and [JSONDecodeError] on other
    text. *)
Definition odd_loads (line : string) : option pyval :=
  if decide (line = number_line) then Some (PInt 5)
  else if decide (line = array_id_line) then
    Some (PDict (<["id" := PList [PInt 1]]>
                   (<["created_at" := PStr "2023-04-01T12:00:00.000000Z"]> ∅)))
  else if decide (line = numeric_date_line) then
    Some (PDict (<["id" := PStr "6"]> (<["created_at" := PInt 20230401]> ∅)))
  else None.

(** ** Writing the results *)

(** What the writers and [main] do to the outside world, in order.  Each
    call is taken to succeed: an [OSError] would leave the function. *)
Inductive io_event : Type :=
| Print (text : string)
| Read (path : string)
| Makedirs (path : string)
| Open (path : string)
| Write (path : string) (text : string)
| Close (path : string).

Definition starts_with_sep (s : string) : bool :=
  match s with
  | String c _ => bool_decide (c = "/"%char)
  | EmptyString => false
  end.

Fixpoint ends_with_sep (s : string) : bool :=
  match s with
  | EmptyString => false
  | String c EmptyString => bool_decide (c = "/"%char)
  | String _ rest => ends_with_sep rest
  end.

(** What [os.path.join] puts before a relative second component. *)
Definition join_prefix (a : string) : string :=
  match a with
  | EmptyString => EmptyString
  | _ => if ends_with_sep a then a else a +:+ "/"
  end.

(** [os.path.join(a, b)] of [posixpath]. *)
Definition path_join (a b : string) : string :=
  if starts_with_sep b then b
  else match a with
       | EmptyString => b
       | _ => if ends_with_sep a then a +:+ b else a +:+ "/" +:+ b
       end.

(** The statements of a [with open(path, 'w') as f] block: the texts given
    to [f.write] and how the block ends.  The file is closed either way. *)
Definition with_open (path : string) (block : list string * outcome unit)
  : list io_event * outcome unit :=
  (Open path :: (Write path <$> block.1) ++ [Close path], block.2).

(** [sorted(items, key=itemgetter(1), reverse=True)]: by count, largest
    first; items with equal counts keep their order. *)
Fixpoint insert_by_count (x : pykey * nat) (l : list (pykey * nat))
  : list (pykey * nat) :=
  match l with
  | [] => [x]
  | y :: l' => if (y.2 <=? x.2)%nat then x :: y :: l' else y :: insert_by_count x l'
  end.

Definition sorted_by_count (items : list (pykey * nat)) : list (pykey * nat) :=
  foldr insert_by_count [] items.

(** The texts written to a path, in order. *)
Definition written (path : string) (events : list io_event) : list string :=
  omap (λ ev, match ev with
              | Write p text => if decide (p = path) then Some text else None
              | _ => None
              end) events.

(** The paths opened for writing, in order. *)
Definition opened (events : list io_event) : list string :=
  omap (λ ev, match ev with Open p => Some p | _ => None end) events.

(** Files are used one at a time: a file is opened only when none is open,
    written and closed only while it is the open one, and none is left
    open. *)
Fixpoint files_closed (current : option string) (events : list io_event) : bool :=
  match events with
  | [] => bool_decide (current = None)
  | Open p :: rest => bool_decide (current = None) && files_closed (Some p) rest
  | Write p _ :: rest => bool_decide (current = Some p) && files_closed current rest
  | Close p :: rest => bool_decide (current = Some p) && files_closed None rest
  | _ :: rest => files_closed current rest
  end.

Section Writers.

(** The text [str] gives for a stored object: an identifier in the bucket of
    a month, and a language of the table. *)
Variable id_text : string → pykey → string.
Variable lang_text : pykey → string.

(** The order in which the set of a month, the month dictionary and the
    language table are iterated. *)
Variable set_iter : string → gset pykey → list pykey.
Variable dict_items : gmap string (gset pykey) → list (string * gset pykey).
Variable counter_items : gmap pykey nat → list (pykey * nat).

(** How the C library renders [%Y]. *)
Variable strftime_Y : Z → string.

(** Lines 66-81. *)
Definition write_monthly_files (monthly_tweets : gmap string (gset pykey))
    (output_dir : string) : list io_event :=
  Makedirs output_dir ::
  (dict_items monthly_tweets ≫= λ '(month, tweet_ids),
     let output_file := path_join output_dir (month +:+ ".txt") in
     Open output_file
     :: ((λ tweet_id, Write output_file (id_text month tweet_id +:+ newline))
           <$> set_iter month tweet_ids)
     ++ [Close output_file]).

(** The events of one turn of the loop of lines 77-81. *)
Definition month_events (dir : string) (item : string * gset pykey) : list io_event :=
  let '(month, tweet_ids) := item in
  let output_file := path_join dir (month +:+ ".txt") in
  Open output_file
  :: ((λ tweet_id, Write output_file (id_text month tweet_id +:+ newline))
        <$> set_iter month tweet_ids)
  ++ [Close output_file].

(** The lines written for the identifiers of a month. *)
Definition month_lines (month : string) (ids : list pykey) : list string :=
  (λ tweet_id, id_text month tweet_id +:+ newline) <$> ids.

(** [date.strftime('%Y-%m-%d %H:%M:%S')]. *)
Definition strftime (date : datetime) : string :=
  strftime_Y (year date) +:+ "-" +:+ format_02d (month date) +:+ "-"
  +:+ format_02d (day date) +:+ " " +:+ format_02d (hour date) +:+ ":"
  +:+ format_02d (minute date) +:+ ":" +:+ format_02d (second date).

(** [date.strftime(...)] on a variable that may hold [None]. *)
Definition strftime_attr (date : option datetime) : outcome string :=
  match date with
  | Some d => Done (strftime d)
  | None => Raised AttributeError
  end.

(** Lines 100-103: the body of the first [with]. *)
Definition general_stats (total_tweets : nat) (unique_authors : gset pykey)
    (first_tweet_date last_tweet_date : option datetime)
  : list string * outcome unit :=
  let line1 := "Total tweets: " +:+ pretty total_tweets +:+ newline in
  let line2 := "Total unique authors: " +:+ pretty (size unique_authors) +:+ newline in
  match strftime_attr first_tweet_date with
  | Raised e => ([line1; line2], Raised e)
  | Done first =>
      let line3 := "First tweet date: " +:+ first +:+ newline in
      match strftime_attr last_tweet_date with
      | Raised e => ([line1; line2; line3], Raised e)
      | Done last =>
          ([line1; line2; line3; "Last tweet date: " +:+ last +:+ newline], Done tt)
      end
  end.

(** [tweets_by_language.most_common()]. *)
Definition most_common (tweets_by_language : gmap pykey nat) : list (pykey * nat) :=
  sorted_by_count (counter_items tweets_by_language).

(** Lines 107-108: the body of the second [with]. *)
Definition language_lines (tweets_by_language : gmap pykey nat) : list string :=
  (λ '(lang, count), lang_text lang +:+ ": " +:+ pretty count +:+ newline)
    <$> most_common tweets_by_language.

(** Lines 84-108. *)
Definition write_statistics (output_dir : string) (total_tweets : nat)
    (unique_authors : gset pykey) (tweets_by_language : gmap pykey nat)
    (first_tweet_date last_tweet_date : option datetime)
  : list io_event * outcome unit :=
  let '(events, result) :=
    with_open (path_join output_dir "general_stats.txt")
      (general_stats total_tweets unique_authors first_tweet_date last_tweet_date) in
  match result with
  | Raised e => (Makedirs output_dir :: events, Raised e)
  | Done _ =>
      let '(events', result') :=
        with_open (path_join output_dir "tweets_by_language.txt")
          (language_lines tweets_by_language, Done tt) in
      (Makedirs output_dir :: (events ++ events')%list, result')
  end.

Variable json_loads : string → option pyval.

Definition input_file : string := "datasets/******.jsonl".
Definition output_dir : string := "datasets/******".

(** Lines 111-130, on the lines of the input file. *)
Definition main (lines : list string) : list io_event * outcome unit :=
  let run := process_jsonl json_loads lines in
  let reading :=
    Print "Processing JSONL file..." :: Read input_file :: (Print <$> stdout run) in
  match returned run with
  | Raised e => (reading, Raised e)
  | Done r =>
      let monthly :=
        Print "Writing monthly files..."
        :: write_monthly_files (monthly_tweets r)
             (path_join output_dir "monthly_tweet_ids") in
      let '(events, result) :=
        write_statistics output_dir (total_tweets r) (unique_authors r)
          (tweets_by_language r) (first_tweet_date r) (last_tweet_date r) in
      let statistics := Print "Writing statistics..." :: events in
      match result with
      | Raised e => ((reading ++ monthly ++ statistics)%list, Raised e)
      | Done _ =>
          ((reading ++ monthly ++ statistics ++ [Print "Processing complete!"])%list,
           Done tt)
      end
  end.

End Writers.

(** [str] on the hashable values of the sample input, which are strings. *)
Definition sample_text (k : pykey) : string :=
  match k with
  | KStr s => s
  | _ => EmptyString
  end.

(** [main] on the sample decoder, iterating sets and dictionaries in the
    order of their elements and rendering [%Y] in decimal. *)
Definition sample_main (lines : list string) : list io_event * outcome unit :=
  main (λ _, sample_text) sample_text (λ _, elements) map_to_list map_to_list pretty
       sample_loads lines.

(** * Properties *)

(** ** The order on datetimes *)

Lemma dt_fields_inj a b : dt_fields a = dt_fields b → a = b.
Proof. destruct a, b; unfold dt_fields; cbn; congruence. Qed.

#[global] Instance dt_lt_strict : StrictOrder dt_lt.
Proof.
  split.
  - intros a. unfold complement, dt_lt. apply irreflexivity, _.
  - intros a b c. unfold dt_lt. apply transitivity.
Qed.

Lemma dt_lt_trichotomy a b : dt_lt a b ∨ a = b ∨ dt_lt b a.
Proof.
  unfold dt_lt.
  destruct (trichotomy lexico (dt_fields a) (dt_fields b)) as [?|[?|?]]; auto using dt_fields_inj.
Qed.

Lemma dt_ltb_true a b : dt_ltb a b = true ↔ dt_lt a b.
Proof. unfold dt_ltb. apply bool_decide_eq_true. Qed.

Lemma dt_ltb_false a b : dt_ltb a b = false ↔ dt_le b a.
Proof.
  unfold dt_ltb, dt_le. rewrite bool_decide_eq_false. split.
  - destruct (dt_lt_trichotomy a b) as [?|[->|?]]; tauto.
  - intros [H| ->] H'.
    + exact (irreflexivity dt_lt _ (transitivity H H')).
    + exact (irreflexivity dt_lt _ H').
Qed.

Lemma dt_le_refl a : dt_le a a.
Proof. by right. Qed.

Lemma dt_le_trans a b c : dt_le a b → dt_le b c → dt_le a c.
Proof.
  intros [H1| ->] [H2| ->]; unfold dt_le; eauto.
  left. by transitivity b.
Qed.

Lemma dt_le_antisym a b : dt_le a b → dt_le b a → a = b.
Proof.
  intros [H1| ->] [H2|H2]; try done.
  destruct (irreflexivity dt_lt _ (transitivity H1 H2)).
Qed.

Lemma dt_le_total a b : dt_le a b ∨ dt_le b a.
Proof. unfold dt_le. destruct (dt_lt_trichotomy a b) as [?|[?|?]]; auto. Qed.

Ltac run_M :=
  cbv beta iota delta [mbind M_bind mret M_ret attr_get raise modify loads when
                       py_strptime hashed].

(** ** One iteration *)

Section Loop.

Variable json_loads : string → option pyval.

Lemma add_after_setdefault key k st :
  add_to_month key k (setdefault_month key st) =
  set_monthly_tweets
    (<[key := {[k]} ∪ default ∅ (monthly_tweets st !! key)]> (monthly_tweets st)) st.
Proof.
  unfold add_to_month, setdefault_month.
  destruct (monthly_tweets st !! key) eqn:E; [by rewrite E|].
  destruct st; cbn in *. unfold set_monthly_tweets; cbn.
  by rewrite lookup_insert_eq, insert_insert_eq.
Qed.

Lemma stats_eq (a b : stats) :
  monthly_tweets a = monthly_tweets b →
  total_tweets a = total_tweets b →
  unique_authors a = unique_authors b →
  tweets_by_language a = tweets_by_language b →
  first_tweet_date a = first_tweet_date b →
  last_tweet_date a = last_tweet_date b →
  a = b.
Proof. destruct a, b; cbn; congruence. Qed.

Lemma update_first_spec date st :
  update_first date st =
  set_first_tweet_date
    (match first_tweet_date st with
     | None => Some date
     | Some first => if dt_ltb date first then Some date else Some first
     end) st.
Proof.
  unfold update_first. destruct st as [m n au c [f|] la]; cbn; [|done].
  by destruct (dt_ltb date f).
Qed.

Lemma update_last_spec date st :
  update_last date st =
  set_last_tweet_date
    (match last_tweet_date st with
     | None => Some date
     | Some last => if dt_ltb last date then Some date else Some last
     end) st.
Proof.
  unfold update_last. destruct st as [m n au c f [la|]]; cbn; [|done].
  by destruct (dt_ltb la date).
Qed.

Lemma iteration_kind line st :
  match kind_of json_loads line with
  | Fails e => printed (iteration json_loads line st) = []
               ∧ escaped (iteration json_loads line st) = Some e
  | k => iteration json_loads line st = step_of line st k
  end.
Proof.
  unfold kind_of, iteration, try_body, optional_key. run_M.
  destruct (json_loads line) as [tweet|]; [|done].
  destruct tweet as [| | | | |xs|d]; try done.
  destruct (truthy (dict_get d "id") && truthy (dict_get d "created_at")); [|done].
  destruct (dict_get d "created_at") as [| | | |s| |]; try done.
  destruct (strptime s) as [date|]; [|by cbn].
  destruct (py_hash (dict_get d "id")) as [k|]; [|by cbn].
  cbn. rewrite add_after_setdefault, update_last_spec, update_first_spec.
  destruct (truthy (dict_get d "author_id")), (py_hash (dict_get d "author_id"));
    destruct (truthy (dict_get d "lang")), (py_hash (dict_get d "lang"));
    cbn; try done.
  all: f_equal; apply stats_eq; cbn; rewrite ?Nat.add_1_r; try done.
  all: unfold setdefault_month; cbn; by destruct (_ !! _).
Qed.

Lemma iteration_invalid line st :
  kind_of json_loads line = Invalid →
  iteration json_loads line st = step_of line st Invalid.
Proof. intros H. generalize (iteration_kind line st). by rewrite H. Qed.

Lemma iteration_skipped line st :
  kind_of json_loads line = Skipped →
  iteration json_loads line st = step_of line st Skipped.
Proof. intros H. generalize (iteration_kind line st). by rewrite H. Qed.

Lemma iteration_included line st t :
  kind_of json_loads line = Included t →
  iteration json_loads line st = step_of line st (Included t).
Proof. intros H. generalize (iteration_kind line st). by rewrite H. Qed.

Lemma iteration_fails line st e :
  kind_of json_loads line = Fails e →
  printed (iteration json_loads line st) = []
  ∧ escaped (iteration json_loads line st) = Some e.
Proof. intros H. generalize (iteration_kind line st). by rewrite H. Qed.

(** ** The loop *)

Lemma for_lines_cons line rest st :
  for_lines json_loads (line :: rest) st =
  match kind_of json_loads line with
  | Invalid =>
      mk_run (("Skipping invalid JSON line: " +:+ line)
              :: stdout (for_lines json_loads rest st))
             (returned (for_lines json_loads rest st))
  | Skipped => for_lines json_loads rest st
  | Included t => for_lines json_loads rest (include t st)
  | Fails e => mk_run [] (Raised e)
  end.
Proof.
  cbn [for_lines].
  destruct (kind_of json_loads line) as [| |t|e] eqn:K.
  - by rewrite (iteration_invalid _ _ K).
  - rewrite (iteration_skipped _ _ K). cbn. by destruct (for_lines _ _ _).
  - rewrite (iteration_included _ _ _ K). cbn. by destruct (for_lines _ _ _).
  - destruct (iteration_fails _ st _ K) as [-> ->]. done.
Qed.

Lemma returned_cons line rest st :
  returned (for_lines json_loads (line :: rest) st) =
  match kind_of json_loads line with
  | Included t => returned (for_lines json_loads rest (include t st))
  | Fails e => Raised e
  | _ => returned (for_lines json_loads rest st)
  end.
Proof. rewrite for_lines_cons. by destruct (kind_of json_loads line). Qed.

(** A run returns exactly when no line fails, and then it returns the
    included lines folded into the local variables, in order. *)
Lemma returned_done lines st r :
  returned (for_lines json_loads lines st) = Done r ↔
  Forall (λ line, ¬ fails json_loads line) lines
  ∧ r = foldl (λ st t, include t st) st (included json_loads lines).
Proof.
  revert st r. induction lines as [|line rest IH]; intros st r.
  - cbn. split; [intros [= <-]; by split|intros [_ ->]; done].
  - rewrite returned_cons. rewrite Forall_cons_iff.
    unfold included, fails in *. cbn [omap list_omap].
    destruct (kind_of json_loads line) as [| |t|e] eqn:K; cbn.
    + rewrite IH. split; [intros [? ?]; split_and!; [intros [? ?]| |]; done|tauto].
    + rewrite IH. split; [intros [? ?]; split_and!; [intros [? ?]| |]; done|tauto].
    + rewrite IH. split; [intros [? ?]; split_and!; [intros [? ?]| |]; done|tauto].
    + split; [done|]. intros [[H _] _]. destruct H. eauto.
Qed.

End Loop.

(** ** Lines the loop skips *)

Lemma returned_app json_loads before after st :
  returned (for_lines json_loads (before ++ after) st) =
  match returned (for_lines json_loads before st) with
  | Done st' => returned (for_lines json_loads after st')
  | Raised e => Raised e
  end.
Proof.
  revert st. induction before as [|line before IH]; intros st; [done|].
  cbn [app]. rewrite !returned_cons.
  by destruct (kind_of json_loads line).
Qed.

Lemma kind_of_invalid json_loads line :
  json_loads line = None → kind_of json_loads line = Invalid.
Proof. unfold kind_of. by intros ->. Qed.

Lemma kind_of_skipped json_loads line d :
  json_loads line = Some (PDict d) →
  truthy (dict_get d "id") && truthy (dict_get d "created_at") = false →
  kind_of json_loads line = Skipped.
Proof. unfold kind_of. by intros -> ->. Qed.

(** C5: a line that is not valid JSON is skipped with the diagnostic of line
    59, the loop goes on with the lines after it from unchanged local
    variables, and the run returns (or raises) what it does on the input
    without that line. *)
Theorem invalid_json_line_is_skipped json_loads line :
  json_loads line = None →
  (∀ st, iteration json_loads line st
         = mk_step ["Skipping invalid JSON line: " +:+ line] st None)
  ∧ (∀ rest st,
       for_lines json_loads (line :: rest) st
       = mk_run (("Skipping invalid JSON line: " +:+ line)
                 :: stdout (for_lines json_loads rest st))
                (returned (for_lines json_loads rest st)))
  ∧ (∀ before after,
       returned (process_jsonl json_loads (before ++ line :: after))
       = returned (process_jsonl json_loads (before ++ after))).
Proof.
  intros H. apply kind_of_invalid in H. split_and!.
  - intros st. by rewrite (iteration_invalid _ _ _ H).
  - intros rest st. by rewrite for_lines_cons, H.
  - intros before after. unfold process_jsonl. rewrite !returned_app.
    destruct (returned (for_lines json_loads before initial_stats)); [|done].
    by rewrite returned_cons, H.
Qed.

Lemma invalid_json_line_is_skipped_witness :
  sample_loads garbage_line = None
  ∧ returned (process_jsonl sample_loads
                ([object_line tweet_april] ++ garbage_line :: [object_line tweet_june]))
    = returned (process_jsonl sample_loads
                  ([object_line tweet_april] ++ [object_line tweet_june])).
Proof.
  split; [reflexivity|].
  apply (invalid_json_line_is_skipped sample_loads garbage_line); reflexivity.
Defined.

(** C6: a line that decodes to an object with a truthy [id] whose
    [created_at] is absent or falsy leaves all local variables as they were
    (the total, the month buckets, the author set, the language table and
    both dates), prints nothing and raises nothing. *)
Theorem missing_created_at_is_excluded json_loads line d :
  json_loads line = Some (PDict d) →
  truthy (dict_get d "id") = true →
  truthy (dict_get d "created_at") = false →
  (∀ st, iteration json_loads line st = mk_step [] st None)
  ∧ (∀ rest st, for_lines json_loads (line :: rest) st = for_lines json_loads rest st).
Proof.
  intros Hd Hid Hc.
  assert (K : kind_of json_loads line = Skipped).
  { apply (kind_of_skipped _ _ d Hd). by rewrite Hid, Hc. }
  split.
  - intros st. by rewrite (iteration_skipped _ _ _ K).
  - intros rest st. by rewrite for_lines_cons, K.
Qed.

Lemma missing_created_at_is_excluded_witness :
  sample_loads (object_line tweet_no_date) = Some (object_value tweet_no_date)
  ∧ for_lines sample_loads [object_line tweet_no_date; object_line tweet_april] initial_stats
    = for_lines sample_loads [object_line tweet_april] initial_stats.
Proof.
  split; [reflexivity|].
  eapply (missing_created_at_is_excluded sample_loads (object_line tweet_no_date));
    reflexivity.
Defined.

(** ** Exceptions of the body *)

Lemma try_body_raises json_loads line st e :
  (try_body json_loads line st).1 = Raised e →
  e = JSONDecodeError ∨ e = AttributeError ∨ e = ValueError ∨ e = TypeError.
Proof.
  unfold try_body. run_M.
  destruct (json_loads line) as [tweet|]; [|cbn; intros [= <-]; auto].
  destruct tweet as [| | | | |xs|d]; try (cbn; intros [= <-]; by auto).
  destruct (truthy (dict_get d "id") && truthy (dict_get d "created_at")); [|done].
  destruct (dict_get d "created_at") as [| | | |s| |]; try (cbn; intros [= <-]; by auto).
  destruct (strptime s) as [date|]; [|cbn; intros [= <-]; by auto].
  destruct (py_hash (dict_get d "id")) as [k|]; [|cbn; intros [= <-]; by auto].
  destruct (truthy (dict_get d "author_id")), (py_hash (dict_get d "author_id"));
    destruct (truthy (dict_get d "lang")), (py_hash (dict_get d "lang"));
    cbn; try done; intros [= <-]; auto.
Qed.

Lemma kind_of_invalid_inv json_loads line :
  kind_of json_loads line = Invalid → json_loads line = None.
Proof.
  unfold kind_of. destruct (json_loads line) as [tweet|]; [|done].
  destruct tweet as [| | | | |xs|d]; try done.
  destruct (truthy (dict_get d "id") && truthy (dict_get d "created_at")); [|done].
  destruct (dict_get d "created_at") as [| | | |s| |]; try done.
  destruct (strptime s); [|done].
  by destruct (py_hash (dict_get d "id")), (optional_key (dict_get d "author_id")),
    (optional_key (dict_get d "lang")).
Qed.

Lemma stdout_diagnostics json_loads lines st text :
  text ∈ stdout (for_lines json_loads lines st) →
  ∃ line, line ∈ lines ∧ json_loads line = None
          ∧ text = "Skipping invalid JSON line: " +:+ line.
Proof.
  revert st. induction lines as [|line rest IH]; intros st.
  - cbn. by intros ?%elem_of_nil.
  - rewrite for_lines_cons.
    destruct (kind_of json_loads line) as [| |t|e] eqn:K; cbn.
    + intros [->|H]%elem_of_cons.
      * exists line. split_and!; [left|by apply kind_of_invalid_inv|done].
      * destruct (IH _ H) as (l & ? & ? & ?). exists l. split_and!; [by right|done..].
    + intros H. destruct (IH _ H) as (l & ? & ? & ?). exists l. split_and!; [by right|done..].
    + intros H. destruct (IH _ H) as (l & ? & ? & ?). exists l. split_and!; [by right|done..].
    + by intros ?%elem_of_nil.
Qed.

(** C9: the body of the [try] never raises [KeyError], so the handler of
    lines 60-61 never runs and its diagnostic is never printed: all that is
    ever printed is the invalid-JSON diagnostic.  A line whose [id] or
    [created_at] is absent or falsy is skipped by the test of line 39,
    without a diagnostic. *)
Theorem keyerror_handler_unreachable json_loads :
  (∀ line st, (try_body json_loads line st).1 ≠ Raised KeyError)
  ∧ (∀ lines text,
       text ∈ stdout (process_jsonl json_loads lines) →
       String.prefix "Skipping tweet with missing required fields: " text = false
       ∧ ∃ line, line ∈ lines ∧ text = "Skipping invalid JSON line: " +:+ line)
  ∧ (∀ line d st,
       json_loads line = Some (PDict d) →
       truthy (dict_get d "id") && truthy (dict_get d "created_at") = false →
       iteration json_loads line st = mk_step [] st None).
Proof.
  split_and!.
  - intros line st H. by destruct (try_body_raises _ _ _ _ H) as [?|[?|[?|?]]].
  - intros lines text H.
    destruct (stdout_diagnostics _ _ _ _ H) as (line & ? & _ & ->).
    split; [done|by exists line].
  - intros line d st Hd Hf.
    by rewrite (iteration_skipped _ _ _ (kind_of_skipped _ _ _ Hd Hf)).
Qed.

Lemma keyerror_handler_unreachable_witness :
  ("Skipping invalid JSON line: " +:+ garbage_line)
    ∈ stdout (process_jsonl sample_loads [object_line tweet_no_date; garbage_line])
  ∧ String.prefix "Skipping tweet with missing required fields: "
      ("Skipping invalid JSON line: " +:+ garbage_line) = false.
Proof.
  assert (H : ("Skipping invalid JSON line: " +:+ garbage_line)
                ∈ stdout (process_jsonl sample_loads
                            [object_line tweet_no_date; garbage_line]))
    by (vm_compute; left).
  split; [exact H|].
  exact (proj1 (proj1 (proj2 (keyerror_handler_unreachable sample_loads)) _ _ H)).
Defined.

(** C2 (the code does otherwise): a line that decodes to an object with a
    truthy [id] and a truthy [created_at] string that [strptime] rejects
    raises [ValueError] out of the loop: no [except] clause catches it,
    nothing is printed, the lines after it are not read and nothing is
    returned. *)
Theorem unparsable_timestamp_aborts json_loads line d s :
  json_loads line = Some (PDict d) →
  truthy (dict_get d "id") = true →
  dict_get d "created_at" = PStr s →
  truthy (PStr s) = true →
  strptime s = None →
  ∀ rest st, for_lines json_loads (line :: rest) st = mk_run [] (Raised ValueError).
Proof.
  intros Hd Hid Hc Ht Hs rest st.
  rewrite for_lines_cons. unfold kind_of.
  by rewrite Hd, Hid, Hc, Ht, Hs.
Qed.

Lemma unparsable_timestamp_aborts_witness :
  sample_loads (object_line tweet_bad_date) = Some (object_value tweet_bad_date)
  ∧ strptime "not-a-date" = None
  ∧ for_lines sample_loads
      [object_line tweet_bad_date; object_line tweet_april] initial_stats
    = mk_run [] (Raised ValueError).
Proof.
  split_and!; [reflexivity..|].
  by eapply (unparsable_timestamp_aborts sample_loads (object_line tweet_bad_date)).
Defined.

(** C10: when no line passes the test of line 39, a run that returns
    returns the initial values: no month bucket, total 0, no author, no
    language, and [None] for both dates.  When moreover every line is
    invalid JSON or decodes to an object (the empty input included), the run
    does return. *)
Theorem nothing_included_returns_initial json_loads lines :
  Forall (λ line, has_required json_loads line = false) lines →
  (∀ r, returned (process_jsonl json_loads lines) = Done r →
        monthly_tweets r = ∅ ∧ total_tweets r = 0%nat ∧ unique_authors r = ∅
        ∧ tweets_by_language r = ∅
        ∧ first_tweet_date r = None ∧ last_tweet_date r = None)
  ∧ (Forall (λ line, json_loads line = None ∨ ∃ d, json_loads line = Some (PDict d)) lines →
     returned (process_jsonl json_loads lines) = Done initial_stats).
Proof.
  intros Hn.
  assert (Hi : included json_loads lines = []).
  { induction Hn as [|line rest Hl _ IH]; [done|].
    unfold included in *. cbn. rewrite IH.
    unfold has_required in Hl. unfold kind_of.
    destruct (json_loads line) as [[| | | | | |d]|]; try done.
    by rewrite Hl. }
  split.
  - intros r [_ ->]%returned_done. by rewrite Hi.
  - intros Hv. apply returned_done. rewrite Hi. split; [|done].
    apply Forall_forall. intros line Hin [e He].
    rewrite Forall_forall in Hn, Hv.
    specialize (Hn _ Hin). specialize (Hv _ Hin).
    unfold has_required in Hn. unfold kind_of in He.
    destruct Hv as [Hv|[d Hv]]; rewrite Hv in *; [done|].
    by rewrite Hn in He.
Qed.

Lemma nothing_included_returns_initial_witness :
  Forall (λ line, has_required sample_loads line = false)
         [garbage_line; object_line tweet_no_date]
  ∧ returned (process_jsonl sample_loads [garbage_line; object_line tweet_no_date])
    = Done initial_stats.
Proof.
  assert (H : Forall (λ line, has_required sample_loads line = false)
                     [garbage_line; object_line tweet_no_date])
    by (repeat constructor).
  split; [exact H|].
  apply (proj2 (nothing_included_returns_initial sample_loads _ H)).
  constructor; [by left|].
  constructor; [right; by eexists|constructor].
Defined.

(** ** The total count *)

Lemma total_foldl ts st :
  total_tweets (foldl (λ st t, include t st) st ts) = (total_tweets st + length ts)%nat.
Proof.
  revert st. induction ts as [|t ts IH]; intros st; cbn; [lia|].
  rewrite IH. cbn. lia.
Qed.

Lemma included_length json_loads lines :
  Forall (λ line, ¬ fails json_loads line) lines →
  length (included json_loads lines) = length (filter (λ line, has_required json_loads line = true) lines).
Proof.
  induction 1 as [|line rest Hl _ IH]; [done|].
  unfold included in *. cbn [omap list_omap]. rewrite filter_cons.
  unfold fails, has_required, kind_of in *.
  destruct (json_loads line) as [[| | | | | |d]|];
    try (destruct Hl; by eexists).
  - destruct (truthy (dict_get d "id") && truthy (dict_get d "created_at")) eqn:E.
    + rewrite decide_True by done.
      destruct (dict_get d "created_at") as [| | | |s| |]; try (destruct Hl; by eexists).
      destruct (strptime s); [|destruct Hl; by eexists].
      destruct (py_hash (dict_get d "id")), (optional_key (dict_get d "author_id")),
        (optional_key (dict_get d "lang")); try (destruct Hl; by eexists).
      cbn. by rewrite IH.
    + by rewrite decide_False.
  - by rewrite decide_False.
Qed.

Lemma valid_hashable_not_fails json_loads line :
  valid_line json_loads line → hashable_fields json_loads line →
  ¬ fails json_loads line.
Proof.
  intros (d & Hd & Hp) Hh [e He]. specialize (Hh d Hd).
  unfold kind_of in He. rewrite Hd in He.
  destruct (truthy (dict_get d "id") && truthy (dict_get d "created_at")) eqn:E; [|done].
  destruct (Hp eq_refl) as (s & date & Hs & Hdate).
  rewrite Hs, Hdate in He.
  apply andb_prop in E as [Eid _].
  destruct (Hh "id") as [k Hk]; [by left|done|].
  rewrite Hk in He.
  assert (Ho : ∀ field, field ∈ ["author_id"; "lang"] →
                        is_Some (optional_key (dict_get d field))).
  { intros field Hf. unfold optional_key.
    destruct (truthy (dict_get d field)) eqn:Et; [|done].
    destruct (Hh field) as [k' ->]; [by right|done|done]. }
  destruct (Ho "author_id") as [a Ha]; [by left|].
  destruct (Ho "lang") as [l Hl]; [by right; left|].
  by rewrite Ha, Hl in He.
Qed.

(** C3: on an input whose lines are all valid JSON objects with parseable
    timestamps, the total a run returns is the number of lines that have
    both a truthy [id] and a truthy [created_at]; and the run does return
    when the fields it hashes are hashable. *)
Theorem total_counts_lines_with_required_fields json_loads lines :
  Forall (valid_line json_loads) lines →
  (∀ r, returned (process_jsonl json_loads lines) = Done r →
        total_tweets r
        = length (filter (λ line, has_required json_loads line = true) lines))
  ∧ (Forall (hashable_fields json_loads) lines →
     ∃ r, returned (process_jsonl json_loads lines) = Done r).
Proof.
  intros Hv. split.
  - intros r [Hf ->]%returned_done.
    by rewrite total_foldl, included_length.
  - intros Hh. eexists. apply returned_done. split; [|done].
    rewrite Forall_forall in Hv, Hh. apply Forall_forall. intros line Hin.
    apply valid_hashable_not_fails; auto.
Qed.

Lemma total_counts_lines_with_required_fields_witness :
  Forall (valid_line sample_loads)
         [object_line tweet_april; object_line tweet_no_date; object_line tweet_june]
  ∧ ∀ r, returned (process_jsonl sample_loads
                     [object_line tweet_april; object_line tweet_no_date;
                      object_line tweet_june]) = Done r →
         total_tweets r = 2%nat.
Proof.
  assert (H : Forall (valid_line sample_loads)
                [object_line tweet_april; object_line tweet_no_date;
                 object_line tweet_june]).
  { repeat apply List.Forall_cons; [..|apply List.Forall_nil].
    - exists (list_to_map (prod_map id PStr <$> tweet_april)).
      split; [reflexivity|]. intros _. eexists _, _. split; reflexivity.
    - exists (list_to_map (prod_map id PStr <$> tweet_no_date)).
      split; [reflexivity|]. intros [=].
    - exists (list_to_map (prod_map id PStr <$> tweet_june)).
      split; [reflexivity|]. intros _. eexists _, _. split; reflexivity. }
  split; [exact H|].
  exact (proj1 (total_counts_lines_with_required_fields sample_loads _ H)).
Defined.

(** ** First and last date *)

Lemma dates_ordered_include t st :
  dates_ordered st → dates_ordered (include t st).
Proof.
  unfold dates_ordered, include; cbn.
  destruct (first_tweet_date st) as [f|], (last_tweet_date st) as [l|]; try done.
  - intros Hfl.
    destruct (dt_ltb (tw_date t) f) eqn:E1, (dt_ltb l (tw_date t)) eqn:E2;
      rewrite ?dt_ltb_true, ?dt_ltb_false in *; try done.
    apply dt_le_refl.
  - intros _. apply dt_le_refl.
Qed.

Lemma dates_ordered_foldl ts st :
  dates_ordered st → dates_ordered (foldl (λ st t, include t st) st ts).
Proof.
  revert st. induction ts as [|t ts IH]; intros st H; [done|].
  cbn. by apply IH, dates_ordered_include.
Qed.

(** C4: when a run returns a total above 0, it returns a first and a last
    date, and the first is less than or equal to the last. *)
Theorem first_date_le_last_date json_loads lines r :
  returned (process_jsonl json_loads lines) = Done r →
  (0 < total_tweets r)%nat →
  ∃ first last,
    first_tweet_date r = Some first ∧ last_tweet_date r = Some last
    ∧ dt_le first last.
Proof.
  intros [_ ->]%returned_done Hpos.
  pose proof (dates_ordered_foldl (included json_loads lines) initial_stats eq_refl) as H.
  unfold dates_ordered in H.
  destruct (first_tweet_date _) as [f|], (last_tweet_date _) as [l|]; try done.
  - by exists f, l.
  - lia.
Qed.

Lemma first_date_le_last_date_witness :
  ∃ r, returned (process_jsonl sample_loads
                   [object_line tweet_june; object_line tweet_april]) = Done r
       ∧ (0 < total_tweets r)%nat
       ∧ ∃ first last,
           first_tweet_date r = Some first ∧ last_tweet_date r = Some last
           ∧ dt_le first last.
Proof.
  eexists. split; [reflexivity|].
  split; [by apply Nat.ltb_lt|].
  eapply (first_date_le_last_date sample_loads
            [object_line tweet_june; object_line tweet_april]);
    [reflexivity|by apply Nat.ltb_lt].
Defined.

(** ** Order of the lines *)

Lemma insert_with_comm `{Countable K} {V} (h1 h2 : option V → V) (k1 k2 : K)
    (m : gmap K V) :
  (k1 = k2 → ∀ o, h1 (Some (h2 o)) = h2 (Some (h1 o))) →
  <[k1 := h1 (<[k2 := h2 (m !! k2)]> m !! k1)]> (<[k2 := h2 (m !! k2)]> m)
  = <[k2 := h2 (<[k1 := h1 (m !! k1)]> m !! k2)]> (<[k1 := h1 (m !! k1)]> m).
Proof.
  intros Hc. destruct (decide (k1 = k2)) as [->|Hne].
  - rewrite !lookup_insert_eq, !insert_insert_eq. f_equal. by apply Hc.
  - rewrite !lookup_insert_ne by done. by apply insert_insert_ne.
Qed.

Lemma dt_lt_irrefl a : dt_lt a a → False.
Proof. apply (irreflexivity dt_lt). Qed.

Lemma dt_lt_trans a b c : dt_lt a b → dt_lt b c → dt_lt a c.
Proof. apply transitivity. Qed.

Ltac dt_order :=
  rewrite ?dt_ltb_true, ?dt_ltb_false in *;
  repeat match goal with H : dt_le _ _ |- _ => destruct H as [H|H]; [|subst] end;
  try done;
  try (exfalso; eapply dt_lt_irrefl; eauto 4 using dt_lt_trans).

Lemma earliest_comm (a b : datetime) (o : option datetime) :
  let upd d o := match o with
                 | None => Some d
                 | Some first => if dt_ltb d first then Some d else Some first
                 end in
  upd a (upd b o) = upd b (upd a o).
Proof.
  cbn. destruct o as [f|]; cbn.
  - destruct (dt_ltb b f) eqn:Ebf, (dt_ltb a f) eqn:Eaf; cbn;
      rewrite ?Ebf, ?Eaf;
      destruct (dt_ltb a b) eqn:Eab, (dt_ltb b a) eqn:Eba; try done;
      f_equal; dt_order.
  - destruct (dt_ltb a b) eqn:Eab, (dt_ltb b a) eqn:Eba; try done;
      f_equal; dt_order.
Qed.

Lemma latest_comm (a b : datetime) (o : option datetime) :
  let upd d o := match o with
                 | None => Some d
                 | Some last => if dt_ltb last d then Some d else Some last
                 end in
  upd a (upd b o) = upd b (upd a o).
Proof.
  cbn. destruct o as [l|]; cbn.
  - destruct (dt_ltb l b) eqn:Ebf, (dt_ltb l a) eqn:Eaf; cbn;
      rewrite ?Ebf, ?Eaf;
      destruct (dt_ltb a b) eqn:Eab, (dt_ltb b a) eqn:Eba; try done;
      f_equal; dt_order.
  - destruct (dt_ltb a b) eqn:Eab, (dt_ltb b a) eqn:Eba; try done;
      f_equal; dt_order.
Qed.

Lemma include_comm t1 t2 st :
  include t1 (include t2 st) = include t2 (include t1 st).
Proof.
  apply stats_eq; cbn.
  - apply (insert_with_comm (λ o, {[tw_id t1]} ∪ default ∅ o)
                            (λ o, {[tw_id t2]} ∪ default ∅ o)).
    intros _ o. cbn. by rewrite !(assoc_L (∪)), (comm_L (∪) {[tw_id t1]}).
  - done.
  - destruct (tw_author t1) as [a1|], (tw_author t2) as [a2|]; try done.
    by rewrite !(assoc_L (∪)), (comm_L (∪) {[a1]}).
  - destruct (tw_lang t1) as [l1|], (tw_lang t2) as [l2|]; try done.
    by apply (insert_with_comm (λ o, S (default 0%nat o)) (λ o, S (default 0%nat o))).
  - apply earliest_comm.
  - apply latest_comm.
Qed.

Lemma foldl_include_perm ts ts' :
  ts ≡ₚ ts' →
  ∀ st, foldl (λ st t, include t st) st ts = foldl (λ st t, include t st) st ts'.
Proof.
  induction 1 as [|t ts ts' _ IH|t1 t2 ts|ts1 ts2 ts3 _ IH1 _ IH2]; intros st; cbn.
  - done.
  - apply IH.
  - by rewrite include_comm.
  - by rewrite IH1.
Qed.

(** C8: a run is a function of its input, and a run that returns returns
    the same tuple on every reordering of the lines: the same month buckets,
    total, author set, language table and first and last date. *)
Theorem result_invariant_under_permutation json_loads lines lines' r :
  lines ≡ₚ lines' →
  returned (process_jsonl json_loads lines) = Done r →
  returned (process_jsonl json_loads lines') = Done r.
Proof.
  intros Hp [Hf ->]%returned_done. apply returned_done. split.
  - by rewrite <- Hp.
  - apply foldl_include_perm. unfold included. by rewrite Hp.
Qed.

Lemma result_invariant_under_permutation_witness :
  [object_line tweet_april; garbage_line; object_line tweet_june]
    ≡ₚ [object_line tweet_june; object_line tweet_april; garbage_line]
  ∧ ∃ r,
      returned (process_jsonl sample_loads
                  [object_line tweet_april; garbage_line; object_line tweet_june]) = Done r
      ∧ returned (process_jsonl sample_loads
                    [object_line tweet_june; object_line tweet_april; garbage_line]) = Done r.
Proof.
  assert (H : [object_line tweet_april; garbage_line; object_line tweet_june]
                ≡ₚ [object_line tweet_june; object_line tweet_april; garbage_line]).
  { etransitivity; [apply perm_skip, perm_swap|]. apply perm_swap. }
  split; [exact H|].
  eexists. split; [reflexivity|].
  by apply (result_invariant_under_permutation sample_loads _ _ _ H).
Defined.

(** ** Month buckets *)

Lemma elem_of_bucket_union x (m : gmap string (gset pykey)) :
  x ∈ bucket_union m ↔ ∃ key bucket, m !! key = Some bucket ∧ x ∈ bucket.
Proof.
  unfold bucket_union. rewrite elem_of_union_list. split.
  - intros (bucket & Hin & Hx).
    apply list_elem_of_fmap in Hin as ([key b] & -> & Hin).
    apply elem_of_map_to_list in Hin. by exists key, b.
  - intros (key & bucket & Hk & Hx). exists bucket. split; [|done].
    apply list_elem_of_fmap. exists (key, bucket). split; [done|].
    by apply elem_of_map_to_list.
Qed.

Lemma bucket_union_include t st :
  bucket_union (monthly_tweets (include t st))
  = {[tw_id t]} ∪ bucket_union (monthly_tweets st).
Proof.
  apply set_eq. intros x. rewrite elem_of_union, elem_of_singleton.
  rewrite !elem_of_bucket_union. cbn. split.
  - intros (key & bucket & Hk & Hx).
    rewrite lookup_insert in Hk. case_decide as Hkey.
    + injection Hk as <-. apply elem_of_union in Hx as [Hx|Hx].
      * left. by apply elem_of_singleton in Hx.
      * right. destruct (monthly_tweets st !! month_key_of (tw_date t)) as [b|] eqn:E.
        -- by exists (month_key_of (tw_date t)), b.
        -- by apply not_elem_of_empty in Hx.
    + right. by exists key, bucket.
  - intros [->|(key & bucket & Hk & Hx)].
    + eexists _, _. rewrite lookup_insert_eq. split; [done|].
      apply elem_of_union. left. by apply elem_of_singleton.
    + destruct (decide (month_key_of (tw_date t) = key)) as [<-|Hne].
      * eexists _, _. rewrite lookup_insert_eq. split; [done|].
        apply elem_of_union. right. by rewrite Hk.
      * exists key, bucket. by rewrite lookup_insert_ne.
Qed.

Lemma partitioned_include t st :
  partitioned st →
  tw_id t ∉ bucket_union (monthly_tweets st) →
  partitioned (include t st).
Proof.
  intros [Hd Hs] Hnew. split.
  - intros k1 k2 b1 b2 x H1 H2 Hx1 Hx2. cbn in H1, H2.
    assert (Hold : ∀ key b, monthly_tweets st !! key = Some b → x ∈ b → x ≠ tw_id t).
    { intros key b Hk Hx ->. apply Hnew. apply elem_of_bucket_union. eauto. }
    assert (Hin : ∀ k b,
      <[month_key_of (tw_date t) :=
          {[tw_id t]} ∪ default ∅ (monthly_tweets st !! month_key_of (tw_date t))]>
        (monthly_tweets st) !! k = Some b → x ∈ b →
      (x = tw_id t ∧ k = month_key_of (tw_date t))
      ∨ (x ≠ tw_id t ∧ ∃ b', monthly_tweets st !! k = Some b' ∧ x ∈ b')).
    { intros k b Hk Hx. rewrite lookup_insert in Hk. case_decide as Hkey.
      - subst k. injection Hk as <-. apply elem_of_union in Hx as [Hx|Hx].
        + left. by apply elem_of_singleton in Hx.
        + right. destruct (monthly_tweets st !! month_key_of (tw_date t)) as [b'|] eqn:E.
          * split; [by eapply Hold|]. by exists b'.
          * by apply not_elem_of_empty in Hx.
      - right. split; [by eapply Hold|]. by exists b. }
    destruct (Hin _ _ H1 Hx1) as [[? ->]|[? (b1' & ? & ?)]],
             (Hin _ _ H2 Hx2) as [[? ->]|[? (b2' & ? & ?)]]; try done.
    by eapply Hd.
  - rewrite bucket_union_include.
    rewrite size_union by (apply disjoint_singleton_l; done).
    rewrite size_singleton. cbn. by rewrite Hs.
Qed.

Lemma partitioned_foldl ts st :
  partitioned st →
  NoDup (tw_id <$> ts) →
  (∀ t, t ∈ ts → tw_id t ∉ bucket_union (monthly_tweets st)) →
  partitioned (foldl (λ st t, include t st) st ts).
Proof.
  revert st. induction ts as [|t ts IH]; intros st Hp Hn Hnew; [done|].
  cbn. rewrite fmap_cons in Hn. apply list.NoDup_cons in Hn as [Ht Hn].
  apply IH; [|done|].
  - apply partitioned_include; [done|]. apply Hnew. by left.
  - intros t' Ht'. rewrite bucket_union_include.
    apply not_elem_of_union. split.
    + apply not_elem_of_singleton. intros E. apply Ht. rewrite <- E.
      by apply list_elem_of_fmap_2.
    + apply Hnew. by right.
Qed.

Lemma bucket_union_foldl ts st :
  bucket_union (monthly_tweets (foldl (λ st t, include t st) st ts))
  = list_to_set (tw_id <$> ts) ∪ bucket_union (monthly_tweets st).
Proof.
  revert st. induction ts as [|t ts IH]; intros st; cbn.
  - by rewrite (left_id_L ∅ (∪)).
  - rewrite IH, bucket_union_include.
    by rewrite !(assoc_L (∪)), (comm_L (∪) {[tw_id t]}).
Qed.

Lemma bucket_union_empty : bucket_union ∅ = ∅.
Proof. unfold bucket_union. by rewrite map_to_list_empty. Qed.

(** C1 as the code has it: the identifiers in the month buckets are those
    of the included lines.  When the included lines carry pairwise distinct
    identifiers, the buckets hold as many identifiers as the total counts and
    no identifier is in two buckets. *)
Theorem month_buckets_partition_distinct_ids json_loads lines r :
  returned (process_jsonl json_loads lines) = Done r →
  bucket_union (monthly_tweets r) = list_to_set (tw_id <$> included json_loads lines)
  ∧ (NoDup (tw_id <$> included json_loads lines) →
     size (bucket_union (monthly_tweets r)) = total_tweets r
     ∧ ∀ key1 key2 bucket1 bucket2 x,
         monthly_tweets r !! key1 = Some bucket1 →
         monthly_tweets r !! key2 = Some bucket2 →
         x ∈ bucket1 → x ∈ bucket2 → key1 = key2).
Proof.
  intros [_ ->]%returned_done. split.
  - rewrite bucket_union_foldl. cbn. rewrite bucket_union_empty.
    by rewrite (right_id_L ∅ (∪)).
  - intros Hn.
    destruct (partitioned_foldl (included json_loads lines) initial_stats) as [Hd Hs].
    + split; [intros ????? H; cbn in H; by rewrite lookup_empty in H|].
      cbn. by rewrite bucket_union_empty.
    + done.
    + intros t _. cbn. rewrite bucket_union_empty. apply not_elem_of_empty.
    + split; [done|]. apply Hd.
Qed.

Lemma sample_kinds :
  kind_of sample_loads (object_line tweet_april) = Included included_april
  ∧ kind_of sample_loads (object_line retweet_may) = Included included_may
  ∧ kind_of sample_loads (object_line tweet_june) = Included included_june
  ∧ kind_of sample_loads garbage_line = Invalid.
Proof. split_and!; vm_compute; reflexivity. Qed.

(** The scenario of one complete line: it is counted once, its identifier is
    in the bucket of April 2023, and it is both the first and the last
    tweet. *)
Example single_tweet_scenario :
  let r := include included_april initial_stats in
  process_jsonl sample_loads [object_line tweet_april] = mk_run [] (Done r)
  ∧ total_tweets r = 1%nat
  ∧ monthly_tweets r = {[ "tweet_ids_2023_04" := {[ KStr "1" ]} ]}
  ∧ unique_authors r = {[ KStr "a" ]}
  ∧ tweets_by_language r = {[ KStr "en" := 1%nat ]}
  ∧ first_tweet_date r = Some (mk_datetime 2023 4 1 12 0 0 0)
  ∧ last_tweet_date r = first_tweet_date r.
Proof.
  destruct sample_kinds as (Ka & _).
  split_and!.
  - unfold process_jsonl. by rewrite for_lines_cons, Ka.
  - reflexivity.
  - apply (bool_decide_unpack _). vm_compute. exact I.
  - apply (bool_decide_unpack _). vm_compute. exact I.
  - apply (bool_decide_unpack _). vm_compute. exact I.
  - reflexivity.
  - reflexivity.
Qed.

Lemma month_buckets_partition_distinct_ids_witness :
  let r := include included_june (include included_april initial_stats) in
  returned (process_jsonl sample_loads
              [object_line tweet_april; garbage_line; object_line tweet_june]) = Done r
  ∧ NoDup (tw_id <$> included sample_loads
                       [object_line tweet_april; garbage_line; object_line tweet_june])
  ∧ size (bucket_union (monthly_tweets r)) = total_tweets r.
Proof.
  destruct sample_kinds as (Ka & _ & Kj & Kg).
  assert (Hr : returned (process_jsonl sample_loads
                 [object_line tweet_april; garbage_line; object_line tweet_june])
               = Done (include included_june (include included_april initial_stats))).
  { unfold process_jsonl. by rewrite returned_cons, Ka, returned_cons, Kg, returned_cons, Kj. }
  assert (Hn : NoDup (tw_id <$> included sample_loads
                        [object_line tweet_april; garbage_line; object_line tweet_june])).
  { unfold included. cbn [omap list_omap]. rewrite Ka, Kg, Kj.
    apply (bool_decide_unpack _). vm_compute. exact I. }
  split; [exact Hr|]. split; [exact Hn|].
  exact (proj1 (proj2 (month_buckets_partition_distinct_ids sample_loads _ _ Hr) Hn)).
Defined.

(** C1 as stated fails: the sample tweet and a second line with the same
    [id] in the next month are both counted, the buckets hold one identifier,
    and it is in the buckets of both months. *)
Lemma month_buckets_same_id_counterexample :
  let r := include included_may (include included_april initial_stats) in
  returned (process_jsonl sample_loads
              [object_line tweet_april; object_line retweet_may]) = Done r
  ∧ total_tweets r = 2%nat
  ∧ size (bucket_union (monthly_tweets r)) = 1%nat
  ∧ monthly_tweets r !! "tweet_ids_2023_04" = Some {[KStr "1"]}
  ∧ monthly_tweets r !! "tweet_ids_2023_05" = Some {[KStr "1"]}
  ∧ ¬ (size (bucket_union (monthly_tweets r)) = total_tweets r
       ∧ ∀ key1 key2 bucket1 bucket2 x,
           monthly_tweets r !! key1 = Some bucket1 →
           monthly_tweets r !! key2 = Some bucket2 →
           x ∈ bucket1 → x ∈ bucket2 → key1 = key2).
Proof.
  destruct sample_kinds as (Ka & Km & _ & _).
  assert (Hs : size (bucket_union (monthly_tweets
                 (include included_may (include included_april initial_stats)))) = 1%nat)
    by (vm_compute; reflexivity).
  split_and!.
  - unfold process_jsonl. by rewrite returned_cons, Ka, returned_cons, Km.
  - reflexivity.
  - exact Hs.
  - apply (bool_decide_unpack _). vm_compute. exact I.
  - apply (bool_decide_unpack _). vm_compute. exact I.
  - intros [H _]. rewrite Hs in H. discriminate H.
Qed.

(** ** Month keys *)

Lemma strptime_range s date :
  strptime s = Some date →
  1 ≤ year date ≤ 9999 ∧ 1 ≤ month date ≤ 12.
Proof.
  unfold strptime.
  destruct (strptime_regex s) as [|[[[[[[[gY gm] gd] gH] gM] gS] gf] rest] _]; [done|].
  destruct rest; [|done].
  unfold datetime_new.
  destruct (_ && _) eqn:E; [|done].
  intros [= <-]. cbn.
  repeat (apply andb_prop in E as [E ?]). lia.
Qed.

Lemma pretty_digits_1 (x : N) s :
  (0 < x < 10)%N → String.length (pretty_N_go x s) = S (String.length s).
Proof.
  intros H. rewrite pretty_N_go_step by lia.
  replace (x `div` 10)%N with 0%N by (symmetry; apply N.div_small; lia).
  by rewrite pretty_N_go_0.
Qed.

Lemma pretty_digits_2 (x : N) s :
  (10 ≤ x < 100)%N → String.length (pretty_N_go x s) = S (S (String.length s)).
Proof.
  intros H. rewrite pretty_N_go_step by lia.
  rewrite pretty_digits_1; [done|].
  split; [apply N.div_str_pos; lia|apply N.Div0.div_lt_upper_bound; lia].
Qed.

Lemma pretty_digits_3 (x : N) s :
  (100 ≤ x < 1000)%N → String.length (pretty_N_go x s) = S (S (S (String.length s))).
Proof.
  intros H. rewrite pretty_N_go_step by lia.
  rewrite pretty_digits_2; [done|].
  split; [apply N.div_le_lower_bound; lia|apply N.Div0.div_lt_upper_bound; lia].
Qed.

Lemma pretty_digits_4 (x : N) s :
  (1000 ≤ x < 10000)%N →
  String.length (pretty_N_go x s) = S (S (S (S (String.length s)))).
Proof.
  intros H. rewrite pretty_N_go_step by lia.
  rewrite pretty_digits_3; [done|].
  split; [apply N.div_le_lower_bound; lia|apply N.Div0.div_lt_upper_bound; lia].
Qed.

Lemma pretty_year_length (y : Z) :
  1 ≤ y ≤ 9999 →
  (1000 ≤ y → String.length (pretty y) = 4%nat)
  ∧ (y < 1000 → (String.length (pretty y) < 4)%nat).
Proof.
  intros Hy. destruct y as [|p|p]; try lia.
  change (pretty (Z.pos p)) with (pretty (N.pos p)).
  unfold pretty, pretty_N. rewrite decide_False by done.
  split; intros H.
  - by rewrite pretty_digits_4 by lia.
  - assert (0 < N.pos p < 10 ∨ 10 ≤ N.pos p < 100 ∨ 100 ≤ N.pos p < 1000)%N
      as [?|[?|?]] by lia.
    + rewrite pretty_digits_1 by done. cbn. lia.
    + rewrite pretty_digits_2 by done. cbn. lia.
    + rewrite pretty_digits_3 by done. cbn. lia.
Qed.

Lemma month_cases (m : Z) :
  1 ≤ m ≤ 12 →
  m = 1 ∨ m = 2 ∨ m = 3 ∨ m = 4 ∨ m = 5 ∨ m = 6
  ∨ m = 7 ∨ m = 8 ∨ m = 9 ∨ m = 10 ∨ m = 11 ∨ m = 12.
Proof. lia. Qed.

Lemma format_02d_length (m : Z) :
  1 ≤ m ≤ 12 → String.length (format_02d m) = 2%nat.
Proof.
  intros H. destruct (month_cases m H) as [->|[->|[->|[->|[->|[->|[->|[->|[->|[->|[->| ->]]]]]]]]]]];
    reflexivity.
Qed.

Lemma format_02d_inj (m1 m2 : Z) :
  1 ≤ m1 ≤ 12 → 1 ≤ m2 ≤ 12 → format_02d m1 = format_02d m2 → m1 = m2.
Proof.
  intros H1 H2.
  destruct (month_cases m1 H1) as [->|[->|[->|[->|[->|[->|[->|[->|[->|[->|[->| ->]]]]]]]]]]];
    destruct (month_cases m2 H2) as [->|[->|[->|[->|[->|[->|[->|[->|[->|[->|[->| ->]]]]]]]]]]];
    vm_compute; congruence.
Qed.

Lemma string_length_app (s t : string) :
  String.length (s +:+ t) = (String.length s + String.length t)%nat.
Proof.
  induction s as [|c s IH]; [done|].
  change (S (String.length (s +:+ t)) = S (String.length s + String.length t)).
  by rewrite IH.
Qed.

Lemma string_app_inj_tail (s1 s2 t1 t2 : string) :
  String.length t1 = String.length t2 →
  s1 +:+ t1 = s2 +:+ t2 → s1 = s2 ∧ t1 = t2.
Proof.
  revert s2. induction s1 as [|c s1 IH]; intros [|c' s2] Hl H.
  - done.
  - change (t1 = String c' (s2 +:+ t2)) in H. subst t1.
    simpl in Hl. rewrite string_length_app in Hl. lia.
  - change (String c (s1 +:+ t1) = t2) in H. subst t2.
    simpl in Hl. rewrite string_length_app in Hl. lia.
  - change (String c (s1 +:+ t1) = String c' (s2 +:+ t2)) in H.
    injection H as -> H. destruct (IH _ Hl H) as [-> ->]. done.
Qed.

Lemma month_key_of_inj d1 d2 :
  1 ≤ year d1 ≤ 9999 → 1 ≤ month d1 ≤ 12 →
  1 ≤ year d2 ≤ 9999 → 1 ≤ month d2 ≤ 12 →
  month_key_of d1 = month_key_of d2 ↔ year d1 = year d2 ∧ month d1 = month d2.
Proof.
  intros Hy1 Hm1 Hy2 Hm2. unfold month_key_of. split.
  - intros H. apply (inj (String.app "tweet_ids_")) in H.
    apply string_app_inj_tail in H as [Hy Hm].
    + split; [by apply (inj pretty)|].
      apply (inj (String.app "_")) in Hm. by apply format_02d_inj.
    + by rewrite !string_length_app, !format_02d_length.
  - by intros [-> ->].
Qed.

(** C7 as the code has it: the identifier of an included line is put in the
    bucket whose key is ["tweet_ids_"], the year of the parsed timestamp in
    decimal, ["_"], and its month in two digits, zero-padded.  The year takes
    four digits from 1000 on and fewer below: it is not padded.  Two parsed
    timestamps have the same key exactly when they have the same year and
    month. *)
Theorem month_key_is_year_and_padded_month json_loads :
  (∀ line d s date st,
     json_loads line = Some (PDict d) →
     truthy (dict_get d "id") && truthy (dict_get d "created_at") = true →
     dict_get d "created_at" = PStr s →
     strptime s = Some date →
     escaped (iteration json_loads line st) = None →
     ∃ k bucket,
       py_hash (dict_get d "id") = Some k
       ∧ monthly_tweets (locals (iteration json_loads line st))
           !! ("tweet_ids_" +:+ pretty (year date) +:+ "_" +:+ format_02d (month date))
         = Some bucket
       ∧ k ∈ bucket)
  ∧ (∀ s date,
       strptime s = Some date →
       String.length (format_02d (month date)) = 2%nat
       ∧ (1000 ≤ year date → String.length (pretty (year date)) = 4%nat)
       ∧ (year date < 1000 → (String.length (pretty (year date)) < 4)%nat))
  ∧ (∀ s1 s2 date1 date2,
       strptime s1 = Some date1 →
       strptime s2 = Some date2 →
       month_key_of date1 = month_key_of date2
       ↔ year date1 = year date2 ∧ month date1 = month date2).
Proof.
  split_and!.
  - intros line d s date st Hd Ht Hc Hs He.
    pose proof (iteration_kind json_loads line st) as K.
    unfold kind_of in K. rewrite Hd, Ht, Hc, Hs in K.
    destruct (py_hash (dict_get d "id")) as [k|]; [|destruct K; congruence].
    destruct (optional_key (dict_get d "author_id")) as [a|]; [|destruct K; congruence].
    destruct (optional_key (dict_get d "lang")) as [l|]; [|destruct K; congruence].
    rewrite K. cbn. eexists k, _. split; [done|].
    fold (month_key_of date). rewrite lookup_insert_eq. split; [done|].
    apply elem_of_union. left. by apply elem_of_singleton.
  - intros s date [Hy Hm]%strptime_range.
    split; [by apply format_02d_length|]. by apply pretty_year_length.
  - intros s1 s2 date1 date2 [??]%strptime_range [??]%strptime_range.
    by apply month_key_of_inj.
Qed.

Lemma month_key_is_year_and_padded_month_witness :
  strptime "2023-04-01T12:00:00.000000Z" = Some (mk_datetime 2023 4 1 12 0 0 0)
  ∧ String.length (format_02d 4) = 2%nat
  ∧ (1000 ≤ 2023 → String.length (pretty 2023) = 4%nat).
Proof.
  assert (H : strptime "2023-04-01T12:00:00.000000Z"
              = Some (mk_datetime 2023 4 1 12 0 0 0)) by reflexivity.
  split; [exact H|].
  destruct (proj1 (proj2 (month_key_is_year_and_padded_month sample_loads)) _ _ H)
    as (Hm & Hy & _).
  split; [exact Hm|exact Hy].
Defined.

(** C7 as stated fails below the year 1000: the sample line dated
    0999-04-01 parses, its identifier goes under ["tweet_ids_999_04"], and
    that key is not made of a four-digit year and a two-digit month. *)
Lemma month_key_year_999_counterexample :
  strptime "0999-04-01T12:00:00.000000Z" = Some (mk_datetime 999 4 1 12 0 0 0)
  ∧ escaped (iteration sample_loads (object_line tweet_year_999) initial_stats) = None
  ∧ monthly_tweets (locals (iteration sample_loads (object_line tweet_year_999)
                              initial_stats))
    = {[ "tweet_ids_999_04" := {[ KStr "5" ]} ]}
  ∧ ¬ ∃ y m, String.length y = 4%nat ∧ String.length m = 2%nat
             ∧ "tweet_ids_999_04" = "tweet_ids_" +:+ y +:+ "_" +:+ m.
Proof.
  split_and!.
  - reflexivity.
  - vm_compute. reflexivity.
  - apply (bool_decide_unpack _). vm_compute. exact I.
  - intros (y & m & Hy & Hm & H).
    apply (f_equal String.length) in H.
    rewrite !string_length_app, Hy, Hm in H. discriminate H.
Qed.

(** * Further properties of [process_jsonl] *)

Local Open Scope list_scope.

(** ** What is printed *)

Lemma kind_of_not_invalid json_loads line :
  kind_of json_loads line ≠ Invalid → json_loads line ≠ None.
Proof. intros H E. by apply H, kind_of_invalid. Qed.

Lemma stdout_for_lines json_loads lines st r :
  returned (for_lines json_loads lines st) = Done r →
  stdout (for_lines json_loads lines st)
  = invalid_json_diagnostic <$> filter (λ line, json_loads line = None) lines.
Proof.
  revert st. induction lines as [|line rest IH]; intros st; [done|].
  rewrite for_lines_cons, filter_cons.
  destruct (kind_of json_loads line) as [| |t|e] eqn:K; cbn.
  - intros H. rewrite decide_True by by apply kind_of_invalid_inv.
    rewrite fmap_cons. f_equal. by eapply IH.
  - intros H. rewrite decide_False by (apply kind_of_not_invalid; congruence).
    by eapply IH.
  - intros H. rewrite decide_False by (apply kind_of_not_invalid; congruence).
    by eapply IH.
  - done.
Qed.

(** X1: when a run returns, it has printed the diagnostic of line 59 once for
    each line that is not valid JSON, in the order of the lines, and nothing
    else. *)
Theorem one_diagnostic_per_invalid_line json_loads lines r :
  returned (process_jsonl json_loads lines) = Done r →
  stdout (process_jsonl json_loads lines)
  = invalid_json_diagnostic <$> filter (λ line, json_loads line = None) lines.
Proof. apply stdout_for_lines. Qed.

Lemma one_diagnostic_per_invalid_line_witness :
  returned (process_jsonl sample_loads
              [garbage_line; object_line tweet_april; garbage_line])
  = Done (include included_april initial_stats)
  ∧ stdout (process_jsonl sample_loads
              [garbage_line; object_line tweet_april; garbage_line])
    = [invalid_json_diagnostic garbage_line; invalid_json_diagnostic garbage_line].
Proof.
  destruct sample_kinds as (Ka & _ & _ & Kg).
  assert (H : returned (process_jsonl sample_loads
                          [garbage_line; object_line tweet_april; garbage_line])
              = Done (include included_april initial_stats)).
  { unfold process_jsonl.
    by rewrite returned_cons, Kg, returned_cons, Ka, returned_cons, Kg. }
  split; [exact H|].
  rewrite (one_diagnostic_per_invalid_line sample_loads _ _ H). reflexivity.
Defined.

(** ** Lines that raise *)

(** X2: a line that decodes to anything but an object (a number, a string, an
    array, [null], ...) raises [AttributeError] at [tweet.get]: nothing is
    printed and the loop is left. *)
Theorem non_object_line_raises json_loads line v :
  json_loads line = Some v →
  (∀ d, v ≠ PDict d) →
  ∀ rest st,
    for_lines json_loads (line :: rest) st = mk_run [] (Raised AttributeError).
Proof.
  intros Hv Hd rest st. rewrite for_lines_cons. unfold kind_of. rewrite Hv.
  destruct v; try done. by destruct (Hd d).
Qed.

Lemma non_object_line_raises_witness :
  odd_loads number_line = Some (PInt 5)
  ∧ for_lines odd_loads [number_line; garbage_line] initial_stats
    = mk_run [] (Raised AttributeError).
Proof.
  split; [reflexivity|].
  by apply (non_object_line_raises odd_loads number_line (PInt 5)).
Defined.

(** X3: a line that passes the test of line 39 raises [TypeError] when its
    [created_at] is not a string, and also when its timestamp parses but its
    [id], or a truthy [author_id] or [lang], is an array or an object
    (unhashable).  The loop is left and nothing is returned. *)
Theorem unhashable_or_non_string_raises json_loads line d :
  json_loads line = Some (PDict d) →
  truthy (dict_get d "id") && truthy (dict_get d "created_at") = true →
  (∀ s, dict_get d "created_at" ≠ PStr s)
  ∨ (∃ s date, dict_get d "created_at" = PStr s ∧ strptime s = Some date
       ∧ ∃ field, field ∈ ["id"; "author_id"; "lang"]
                  ∧ truthy (dict_get d field) = true
                  ∧ py_hash (dict_get d field) = None) →
  ∀ rest st,
    for_lines json_loads (line :: rest) st = mk_run [] (Raised TypeError).
Proof.
  intros Hd Ht Hc rest st. rewrite for_lines_cons. unfold kind_of.
  rewrite Hd, Ht. destruct Hc as [Hc|(s & date & Hc & Hs & field & Hf & Htf & Hh)].
  - destruct (dict_get d "created_at"); try done. by destruct (Hc s).
  - rewrite Hc, Hs. unfold optional_key.
    apply elem_of_cons in Hf as [->|Hf]; [by rewrite Hh|].
    destruct (py_hash (dict_get d "id")); [|done].
    apply elem_of_cons in Hf as [->|Hf]; [by rewrite Htf, Hh|].
    apply list_elem_of_singleton in Hf as ->. rewrite Htf, Hh.
    by destruct (truthy (dict_get d "author_id")), (py_hash (dict_get d "author_id")).
Qed.

Lemma unhashable_or_non_string_raises_witness :
  for_lines odd_loads [array_id_line] initial_stats = mk_run [] (Raised TypeError)
  ∧ for_lines odd_loads [numeric_date_line] initial_stats = mk_run [] (Raised TypeError).
Proof.
  split.
  - eapply (unhashable_or_non_string_raises odd_loads array_id_line);
      [reflexivity|reflexivity|].
    right. eexists _, _. split; [reflexivity|]. split; [reflexivity|].
    exists "id". split; [by left|]. split; reflexivity.
  - eapply (unhashable_or_non_string_raises odd_loads numeric_date_line);
      [reflexivity|reflexivity|].
    left. intros s. discriminate.
Defined.

(** ** Runs in pieces *)

Lemma for_lines_app json_loads before after st :
  for_lines json_loads (before ++ after) st =
  match returned (for_lines json_loads before st) with
  | Done st' =>
      mk_run (stdout (for_lines json_loads before st)
              ++ stdout (for_lines json_loads after st'))
             (returned (for_lines json_loads after st'))
  | Raised e => for_lines json_loads before st
  end.
Proof.
  revert st. induction before as [|line before IH]; intros st.
  - cbn. by destruct (for_lines json_loads after st).
  - cbn [app]. rewrite !for_lines_cons.
    destruct (kind_of json_loads line) as [| |t|e]; cbn.
    + rewrite IH. by destruct (returned (for_lines json_loads before st)) eqn:E; cbn; rewrite ?E.
    + apply IH.
    + apply IH.
    + done.
Qed.

(** X4: reading a file in two parts: when the loop gets through the first part,
    the whole run prints what the first part prints, then what the second
    part prints when started from the local variables the first part left,
    and it returns or raises what the second part does.  When the first part
    raises, the second part is never read. *)
Theorem run_on_concatenation json_loads before after st :
  (∀ st', returned (for_lines json_loads before st) = Done st' →
     for_lines json_loads (before ++ after) st
     = mk_run (stdout (for_lines json_loads before st)
               ++ stdout (for_lines json_loads after st'))
              (returned (for_lines json_loads after st')))
  ∧ (∀ e, returned (for_lines json_loads before st) = Raised e →
       for_lines json_loads (before ++ after) st = for_lines json_loads before st).
Proof.
  split; intros x H; by rewrite for_lines_app, H.
Qed.

Lemma run_on_concatenation_witness :
  returned (for_lines sample_loads [object_line tweet_bad_date] initial_stats)
  = Raised ValueError
  ∧ for_lines sample_loads
      ([object_line tweet_bad_date] ++ [object_line tweet_april]) initial_stats
    = for_lines sample_loads [object_line tweet_bad_date] initial_stats.
Proof.
  assert (H : returned (for_lines sample_loads [object_line tweet_bad_date] initial_stats)
              = Raised ValueError) by reflexivity.
  split; [exact H|].
  exact (proj2 (run_on_concatenation sample_loads _ _ _) _ H).
Defined.

Lemma returned_raised json_loads lines st e :
  returned (for_lines json_loads lines st) = Raised e ↔
  ∃ (before : list string) (line : string) (after : list string),
    lines = (before ++ line :: after)%list
    ∧ Forall (λ line, ¬ fails json_loads line) before
    ∧ kind_of json_loads line = Fails e.
Proof.
  revert st. induction lines as [|line rest IH]; intros st.
  - cbn. split; [done|]. intros (b & l & a & H & _). by destruct b.
  - rewrite returned_cons. split.
    + intros H.
      destruct (kind_of json_loads line) as [| |t|e'] eqn:K.
      * apply IH in H as (b & l & a & -> & Hb & Hl).
        exists (line :: b), l, a. split_and!; [done| |done].
        constructor; [|done]. intros [? ?]. congruence.
      * apply IH in H as (b & l & a & -> & Hb & Hl).
        exists (line :: b), l, a. split_and!; [done| |done].
        constructor; [|done]. intros [? ?]. congruence.
      * apply IH in H as (b & l & a & -> & Hb & Hl).
        exists (line :: b), l, a. split_and!; [done| |done].
        constructor; [|done]. intros [? ?]. congruence.
      * injection H as ->. by exists [], line, rest.
    + intros (b & l & a & E & Hb & Hl). destruct b as [|l' b].
      * cbn in E. injection E as <- <-. by rewrite Hl.
      * cbn in E. injection E as <- ->. apply Forall_cons_iff in Hb as [Hl' Hb].
        assert (returned (for_lines json_loads (b ++ l :: a) st) = Raised e
                ∧ ∀ t, returned (for_lines json_loads (b ++ l :: a) (include t st)) = Raised e)
          as [H1 H2].
        { split; [|intros t]; apply IH; by exists b, l, a. }
        destruct (kind_of json_loads line) as [| |t|e'] eqn:K; try done.
        destruct Hl'. by exists e'.
Qed.

(** X5: a run raises exactly when some line fails, and it raises the exception of
    the first such line: the lines after it play no part. *)
Theorem run_raises_at_first_failing_line json_loads lines e :
  returned (process_jsonl json_loads lines) = Raised e ↔
  ∃ (before : list string) (line : string) (after : list string),
    lines = (before ++ line :: after)%list
    ∧ (∃ r, returned (process_jsonl json_loads before) = Done r)
    ∧ (∀ st, escaped (iteration json_loads line st) = Some e).
Proof.
  unfold process_jsonl. rewrite returned_raised. split.
  - intros (b & l & a & -> & Hb & Hl). exists b, l, a. split_and!; [done|..].
    + eexists. apply returned_done. by split.
    + intros st. by apply iteration_fails.
  - intros (b & l & a & -> & [r Hr] & Hl). exists b, l, a. split_and!; [done|..].
    + by apply returned_done in Hr as [? _].
    + specialize (Hl initial_stats).
      pose proof (iteration_kind json_loads l initial_stats) as K.
      destruct (kind_of json_loads l) as [| |t|e']; try (by rewrite K in Hl).
      destruct K as [_ K]. congruence.
Qed.

Lemma run_raises_at_first_failing_line_witness :
  returned (process_jsonl sample_loads
              [object_line tweet_april; object_line tweet_bad_date; garbage_line])
  = Raised ValueError.
Proof.
  apply (proj2 (run_raises_at_first_failing_line sample_loads _ ValueError)).
  exists [object_line tweet_april], (object_line tweet_bad_date), [garbage_line].
  split; [reflexivity|]. split.
  - exists (include included_april initial_stats).
    destruct sample_kinds as (Ka & _). unfold process_jsonl.
    by rewrite returned_cons, Ka.
  - intros st.
    apply (iteration_fails sample_loads (object_line tweet_bad_date) st ValueError).
    reflexivity.
Defined.

(** ** What the returned statistics hold *)

Lemma elem_of_included json_loads lines t :
  t ∈ included json_loads lines ↔
  ∃ line, line ∈ lines ∧ kind_of json_loads line = Included t.
Proof.
  unfold included. rewrite list_elem_of_omap. split.
  - intros (line & Hin & H). exists line. split; [done|].
    destruct (kind_of json_loads line); congruence.
  - intros (line & Hin & H). exists line. split; [done|]. by rewrite H.
Qed.

(** *** First and last date *)

Lemma first_foldl ts st :
  let r := foldl (λ st t, include t st) st ts in
  (∀ f0, first_tweet_date st = Some f0 →
         ∃ f, first_tweet_date r = Some f ∧ dt_le f f0)
  ∧ (∀ t, t ∈ ts → ∃ f, first_tweet_date r = Some f ∧ dt_le f (tw_date t))
  ∧ (∀ f, first_tweet_date r = Some f →
          first_tweet_date st = Some f ∨ ∃ t, t ∈ ts ∧ tw_date t = f).
Proof.
  revert st. induction ts as [|t ts IH]; intros st; cbn [foldl]; cbv zeta.
  - split_and!.
    + intros f0 ->. exists f0. split; [done|apply dt_le_refl].
    + by intros t ?%elem_of_nil.
    + auto.
  - pose proof (IH (include t st)) as IH'. cbv zeta in IH'.
    destruct IH' as (IH1 & IH2 & IH3).
    assert (Hstep : ∃ f1, first_tweet_date (include t st) = Some f1
                          ∧ dt_le f1 (tw_date t)
                          ∧ (∀ f0, first_tweet_date st = Some f0 → dt_le f1 f0)
                          ∧ (first_tweet_date st = Some f1 ∨ tw_date t = f1)).
    { cbn. destruct (first_tweet_date st) as [f0|].
      - destruct (dt_ltb (tw_date t) f0) eqn:E.
        + exists (tw_date t). split_and!; [done|apply dt_le_refl| |by right].
          intros ? [= <-]. left. by apply dt_ltb_true.
        + exists f0. split_and!; [done|by apply dt_ltb_false| |by left].
          intros ? [= <-]. apply dt_le_refl.
      - exists (tw_date t). split_and!; [done|apply dt_le_refl|done|by right]. }
    destruct Hstep as (f1 & Hf1 & Hle & Hold & Hfrom).
    destruct (IH1 _ Hf1) as (f & Hf & Hff1).
    split_and!.
    + intros f0 Hf0. exists f. split; [done|].
      eapply dt_le_trans; [done|]. by apply Hold.
    + intros t' [->|Hin]%elem_of_cons.
      * exists f. split; [done|]. by eapply dt_le_trans.
      * by apply IH2.
    + intros f' Hf'. destruct (IH3 _ Hf') as [H|(t' & Hin & Ht')].
      * rewrite Hf1 in H. injection H as <-.
        destruct Hfrom as [?|?]; [by left|]. right. exists t. split; [by left|done].
      * right. exists t'. split; [by right|done].
Qed.

Lemma last_foldl ts st :
  let r := foldl (λ st t, include t st) st ts in
  (∀ l0, last_tweet_date st = Some l0 →
         ∃ l, last_tweet_date r = Some l ∧ dt_le l0 l)
  ∧ (∀ t, t ∈ ts → ∃ l, last_tweet_date r = Some l ∧ dt_le (tw_date t) l)
  ∧ (∀ l, last_tweet_date r = Some l →
          last_tweet_date st = Some l ∨ ∃ t, t ∈ ts ∧ tw_date t = l).
Proof.
  revert st. induction ts as [|t ts IH]; intros st; cbn [foldl]; cbv zeta.
  - split_and!.
    + intros l0 ->. exists l0. split; [done|apply dt_le_refl].
    + by intros t ?%elem_of_nil.
    + auto.
  - pose proof (IH (include t st)) as IH'. cbv zeta in IH'.
    destruct IH' as (IH1 & IH2 & IH3).
    assert (Hstep : ∃ l1, last_tweet_date (include t st) = Some l1
                          ∧ dt_le (tw_date t) l1
                          ∧ (∀ l0, last_tweet_date st = Some l0 → dt_le l0 l1)
                          ∧ (last_tweet_date st = Some l1 ∨ tw_date t = l1)).
    { cbn. destruct (last_tweet_date st) as [l0|].
      - destruct (dt_ltb l0 (tw_date t)) eqn:E.
        + exists (tw_date t). split_and!; [done|apply dt_le_refl| |by right].
          intros ? [= <-]. left. by apply dt_ltb_true.
        + exists l0. split_and!; [done|by apply dt_ltb_false| |by left].
          intros ? [= <-]. apply dt_le_refl.
      - exists (tw_date t). split_and!; [done|apply dt_le_refl|done|by right]. }
    destruct Hstep as (l1 & Hl1 & Hle & Hold & Hfrom).
    destruct (IH1 _ Hl1) as (l & Hl & Hll1).
    split_and!.
    + intros l0 Hl0. exists l. split; [done|].
      eapply dt_le_trans; [|done]. by apply Hold.
    + intros t' [->|Hin]%elem_of_cons.
      * exists l. split; [done|]. by eapply dt_le_trans.
      * by apply IH2.
    + intros l' Hl'. destruct (IH3 _ Hl') as [H|(t' & Hin & Ht')].
      * rewrite Hl1 in H. injection H as <-.
        destruct Hfrom as [?|?]; [by left|]. right. exists t. split; [by left|done].
      * right. exists t'. split; [by right|done].
Qed.

(** X6: the first date a run returns is the earliest timestamp among the
    included lines and the last date the latest: each is the timestamp of
    some included line, and every included timestamp lies between them. *)
Theorem first_and_last_are_extremes json_loads lines r :
  returned (process_jsonl json_loads lines) = Done r →
  (∀ t, t ∈ included json_loads lines →
        ∃ first last,
          first_tweet_date r = Some first ∧ last_tweet_date r = Some last
          ∧ dt_le first (tw_date t) ∧ dt_le (tw_date t) last)
  ∧ (∀ first, first_tweet_date r = Some first →
              ∃ t, t ∈ included json_loads lines ∧ tw_date t = first)
  ∧ (∀ last, last_tweet_date r = Some last →
             ∃ t, t ∈ included json_loads lines ∧ tw_date t = last).
Proof.
  intros [_ ->]%returned_done.
  destruct (first_foldl (included json_loads lines) initial_stats) as (_ & F2 & F3).
  destruct (last_foldl (included json_loads lines) initial_stats) as (_ & L2 & L3).
  cbn in *. split_and!.
  - intros t Hin. destruct (F2 t Hin) as (f & ? & ?), (L2 t Hin) as (l & ? & ?).
    by exists f, l.
  - intros f Hf. by destruct (F3 f Hf).
  - intros l Hl. by destruct (L3 l Hl).
Qed.

Lemma first_and_last_are_extremes_witness :
  let lines := [object_line tweet_june; garbage_line; object_line tweet_april] in
  let r := include included_april (include included_june initial_stats) in
  returned (process_jsonl sample_loads lines) = Done r
  ∧ ∀ first, first_tweet_date r = Some first →
             ∃ t, t ∈ included sample_loads lines ∧ tw_date t = first.
Proof.
  destruct sample_kinds as (Ka & _ & Kj & Kg).
  assert (H : returned (process_jsonl sample_loads
                [object_line tweet_june; garbage_line; object_line tweet_april])
              = Done (include included_april (include included_june initial_stats))).
  { unfold process_jsonl.
    by rewrite returned_cons, Kj, returned_cons, Kg, returned_cons, Ka. }
  split; [exact H|].
  exact (proj1 (proj2 (first_and_last_are_extremes sample_loads _ _ H))).
Defined.

(** *** Month buckets *)

Lemma bucket_foldl ts st key x :
  (∃ bucket, monthly_tweets (foldl (λ st t, include t st) st ts) !! key = Some bucket
             ∧ x ∈ bucket)
  ↔ (∃ bucket, monthly_tweets st !! key = Some bucket ∧ x ∈ bucket)
    ∨ (∃ t, t ∈ ts ∧ tw_id t = x ∧ month_key_of (tw_date t) = key).
Proof.
  revert st. induction ts as [|t ts IH]; intros st; cbn [foldl].
  - split; [by left|]. intros [H|(t & []%elem_of_nil & _)]. done.
  - rewrite IH. cbn. split.
    + intros [(b & Hb & Hx)|(t' & Hin & Ht')].
      * rewrite lookup_insert in Hb. case_decide as Hk.
        -- injection Hb as <-. apply elem_of_union in Hx as [Hx|Hx].
           ++ apply elem_of_singleton in Hx. right. exists t. split; [by left|done].
           ++ left. destruct (monthly_tweets st !! month_key_of (tw_date t)) as [b|] eqn:E.
              ** exists b. by rewrite <- Hk.
              ** by apply not_elem_of_empty in Hx.
        -- left. by exists b.
      * right. exists t'. split; [by right|done].
    + intros [(b & Hb & Hx)|(t' & [->|Hin]%elem_of_cons & Hid & Hk)].
      * left. destruct (decide (month_key_of (tw_date t) = key)) as [<-|Hne].
        -- eexists. rewrite lookup_insert_eq. split; [done|].
           apply elem_of_union. right. by rewrite Hb.
        -- exists b. by rewrite lookup_insert_ne.
      * left. subst. eexists. rewrite lookup_insert_eq. split; [done|].
        apply elem_of_union. left. by apply elem_of_singleton.
      * right. by exists t'.
Qed.

Lemma buckets_nonempty_foldl ts st :
  (∀ key bucket, monthly_tweets st !! key = Some bucket → bucket ≠ ∅) →
  ∀ key bucket,
    monthly_tweets (foldl (λ st t, include t st) st ts) !! key = Some bucket →
    bucket ≠ ∅.
Proof.
  revert st. induction ts as [|t ts IH]; intros st H; [done|].
  cbn [foldl]. apply IH. intros key b. cbn. rewrite lookup_insert.
  case_decide; [|by apply H].
  intros [= <-] E. apply (not_elem_of_empty (C:=gset pykey) (tw_id t)).
  rewrite <- E. apply elem_of_union. left. by apply elem_of_singleton.
Qed.

(** X7: the month buckets a run returns: an identifier is in the bucket of a
    key exactly when some included line carries that identifier and a
    timestamp of that month; no returned bucket is empty. *)
Theorem buckets_hold_the_ids_of_their_month json_loads lines r :
  returned (process_jsonl json_loads lines) = Done r →
  ∀ key bucket,
    monthly_tweets r !! key = Some bucket →
    bucket ≠ ∅
    ∧ ∀ x, x ∈ bucket ↔
           ∃ t, t ∈ included json_loads lines
                ∧ tw_id t = x ∧ month_key_of (tw_date t) = key.
Proof.
  intros [_ ->]%returned_done key bucket Hb. split.
  - eapply (buckets_nonempty_foldl _ initial_stats); [|done].
    intros k b. cbn. by rewrite lookup_empty.
  - intros x.
    pose proof (bucket_foldl (included json_loads lines) initial_stats key x) as H.
    rewrite Hb in H. split.
    + intros Hx. destruct (proj1 H) as [(b & E & _)|Ht]; [by exists bucket| |done].
      cbn in E. by rewrite lookup_empty in E.
    + intros Ht. destruct (proj2 H (or_intror Ht)) as (b & [= <-] & Hx). done.
Qed.

Lemma buckets_hold_the_ids_of_their_month_witness :
  let lines := [object_line tweet_april; object_line tweet_june] in
  let r := include included_june (include included_april initial_stats) in
  returned (process_jsonl sample_loads lines) = Done r
  ∧ monthly_tweets r !! "tweet_ids_2023_06" = Some {[KStr "2"]}
  ∧ ∀ x, x ∈ ({[KStr "2"]} : gset pykey) ↔
         ∃ t, t ∈ included sample_loads lines
              ∧ tw_id t = x ∧ month_key_of (tw_date t) = "tweet_ids_2023_06".
Proof.
  destruct sample_kinds as (Ka & _ & Kj & _).
  assert (H : returned (process_jsonl sample_loads
                [object_line tweet_april; object_line tweet_june])
              = Done (include included_june (include included_april initial_stats))).
  { unfold process_jsonl. by rewrite returned_cons, Ka, returned_cons, Kj. }
  assert (Hb : monthly_tweets (include included_june (include included_april initial_stats))
                 !! "tweet_ids_2023_06" = Some {[KStr "2"]}).
  { apply (bool_decide_unpack _). vm_compute. exact I. }
  split; [exact H|]. split; [exact Hb|].
  exact (proj2 (buckets_hold_the_ids_of_their_month sample_loads _ _ H _ _ Hb)).
Defined.

(** *** Authors and languages *)

Lemma authors_foldl ts st x :
  x ∈ unique_authors (foldl (λ st t, include t st) st ts)
  ↔ x ∈ unique_authors st ∨ ∃ t, t ∈ ts ∧ tw_author t = Some x.
Proof.
  revert st. induction ts as [|t ts IH]; intros st; cbn [foldl].
  - split; [by left|]. intros [H|(t & []%elem_of_nil & _)]. done.
  - rewrite IH. cbn. split.
    + intros [H|(t' & Hin & Ht')].
      * destruct (tw_author t) as [a|] eqn:E; [|by left].
        apply elem_of_union in H as [->%elem_of_singleton|H]; [|by left].
        right. exists t. split; [by left|done].
      * right. exists t'. split; [by right|done].
    + intros [H|(t' & [->|Hin]%elem_of_cons & Ht')].
      * left. destruct (tw_author t); [|done]. apply elem_of_union. by right.
      * left. rewrite Ht'. apply elem_of_union. left. by apply elem_of_singleton.
      * right. by exists t'.
Qed.

Lemma languages_foldl ts st l :
  default 0%nat (tweets_by_language (foldl (λ st t, include t st) st ts) !! l)
  = (default 0%nat (tweets_by_language st !! l)
     + length (filter (λ t, tw_lang t = Some l) ts))%nat.
Proof.
  revert st. induction ts as [|t ts IH]; intros st; cbn [foldl].
  - cbn. lia.
  - rewrite IH, filter_cons. cbn.
    destruct (tw_lang t) as [l'|] eqn:E.
    + destruct (decide (l' = l)) as [->|Hne].
      * rewrite lookup_insert_eq, decide_True by done. cbn. lia.
      * rewrite lookup_insert_ne, decide_False by congruence. done.
    + by rewrite decide_False.
Qed.

Lemma languages_positive_foldl ts st :
  (∀ l n, tweets_by_language st !! l = Some n → (0 < n)%nat) →
  ∀ l n, tweets_by_language (foldl (λ st t, include t st) st ts) !! l = Some n →
         (0 < n)%nat.
Proof.
  revert st. induction ts as [|t ts IH]; intros st H; [done|].
  cbn [foldl]. apply IH. intros l n. cbn.
  destruct (tw_lang t) as [l'|]; [|by apply H].
  rewrite lookup_insert. case_decide; [|by apply H].
  intros [= <-]. lia.
Qed.

(** X8: the author set a run returns holds exactly the hashed truthy
    [author_id]s of the included lines.  The language table binds a language
    exactly when some included line has it as its truthy [lang], and then to
    the number of included lines that have it: no entry is 0. *)
Theorem authors_and_language_counts json_loads lines r :
  returned (process_jsonl json_loads lines) = Done r →
  (∀ a, a ∈ unique_authors r ↔
        ∃ t, t ∈ included json_loads lines ∧ tw_author t = Some a)
  ∧ (∀ l, default 0%nat (tweets_by_language r !! l)
          = length (filter (λ t, tw_lang t = Some l) (included json_loads lines)))
  ∧ (∀ l n, tweets_by_language r !! l = Some n → (0 < n)%nat).
Proof.
  intros [_ ->]%returned_done. split_and!.
  - intros a. rewrite authors_foldl. cbn. split; [|by right].
    intros [[]%not_elem_of_empty|H]; done.
  - intros l. rewrite languages_foldl. cbn. by rewrite lookup_empty.
  - apply (languages_positive_foldl _ initial_stats). intros l n. cbn.
    by rewrite lookup_empty.
Qed.

Lemma authors_and_language_counts_witness :
  let lines := [object_line tweet_april; object_line retweet_may;
                object_line tweet_june] in
  let r := include included_june
             (include included_may (include included_april initial_stats)) in
  returned (process_jsonl sample_loads lines) = Done r
  ∧ default 0%nat (tweets_by_language r !! KStr "en")
    = length (filter (λ t, tw_lang t = Some (KStr "en")) (included sample_loads lines)).
Proof.
  destruct sample_kinds as (Ka & Km & Kj & _).
  assert (H : returned (process_jsonl sample_loads
                [object_line tweet_april; object_line retweet_may;
                 object_line tweet_june])
              = Done (include included_june
                        (include included_may (include included_april initial_stats)))).
  { unfold process_jsonl.
    by rewrite returned_cons, Ka, returned_cons, Km, returned_cons, Kj. }
  split; [exact H|].
  exact (proj1 (proj2 (authors_and_language_counts sample_loads _ _ H)) (KStr "en")).
Defined.

(** *** Sizes *)

Lemma language_total_bump (c : gmap pykey nat) l :
  language_total (<[l := S (default 0%nat (c !! l))]> c) = S (language_total c).
Proof.
  unfold language_total.
  assert (Hcomm : ∀ (j1 j2 : pykey) (z1 z2 y : nat),
            (z1 + (z2 + y) = z2 + (z1 + y))%nat) by (intros; lia).
  destruct (c !! l) as [n|] eqn:E; cbn.
  - rewrite <- (insert_delete_id c l n E) at 2.
    rewrite <- (insert_delete_eq c l (S n)).
    rewrite !map_fold_insert_L; try (by rewrite lookup_delete_eq); eauto.
  - rewrite map_fold_insert_L; eauto.
Qed.

Lemma sizes_foldl ts st :
  let r := foldl (λ st t, include t st) st ts in
  (size (monthly_tweets r) ≤ size (monthly_tweets st) + length ts)%nat
  ∧ (size (unique_authors r) ≤ size (unique_authors st) + length ts)%nat
  ∧ language_total (tweets_by_language r)
    = (language_total (tweets_by_language st)
       + length (filter (λ t, is_Some (tw_lang t)) ts))%nat.
Proof.
  revert st. induction ts as [|t ts IH]; intros st; cbn [foldl]; cbv zeta.
  - cbn. lia.
  - pose proof (IH (include t st)) as IH'. cbv zeta in IH'.
    destruct IH' as (Hm & Ha & Hl). rewrite Hl, filter_cons. cbn in *.
    split_and!.
    + rewrite map_size_insert in Hm.
      destruct (monthly_tweets st !! month_key_of (tw_date t)); cbn in Hm; lia.
    + destruct (tw_author t) as [a|]; [|lia].
      pose proof (size_union_alt ({[a]} : gset pykey) (unique_authors st)) as Hu.
      rewrite size_singleton in Hu.
      assert (Hs : (size (unique_authors st ∖ {[a]}) ≤ size (unique_authors st))%nat).
      { apply subseteq_size. by apply subseteq_difference_l. }
      lia.
    + destruct (tw_lang t) as [l|].
      * rewrite decide_True by by eexists. rewrite language_total_bump. cbn. lia.
      * rewrite decide_False by by intros [? ?]. done.
Qed.

(** X9: the statistics a run returns are bounded by its total: there are at most
    as many month buckets, at most as many unique authors, and the counts of
    the language table sum to at most the total (to the number of included
    lines with a truthy [lang]). *)
Theorem statistics_bounded_by_total json_loads lines r :
  returned (process_jsonl json_loads lines) = Done r →
  (size (monthly_tweets r) ≤ total_tweets r)%nat
  ∧ (size (unique_authors r) ≤ total_tweets r)%nat
  ∧ (language_total (tweets_by_language r) ≤ total_tweets r)%nat
  ∧ language_total (tweets_by_language r)
    = length (filter (λ t, is_Some (tw_lang t)) (included json_loads lines)).
Proof.
  intros [_ ->]%returned_done.
  destruct (sizes_foldl (included json_loads lines) initial_stats) as (Hm & Ha & Hl).
  rewrite total_foldl. cbn in *.
  rewrite map_size_empty in Hm. rewrite size_empty in Ha.
  assert (language_total ∅ = 0%nat) as Hz by done. rewrite Hz in Hl.
  pose proof (length_filter (λ t, is_Some (tw_lang t)) (included json_loads lines)).
  split_and!; lia.
Qed.

Lemma statistics_bounded_by_total_witness :
  let lines := [object_line tweet_april; object_line retweet_may] in
  let r := include included_may (include included_april initial_stats) in
  returned (process_jsonl sample_loads lines) = Done r
  ∧ (size (unique_authors r) ≤ total_tweets r)%nat.
Proof.
  destruct sample_kinds as (Ka & Km & _).
  assert (H : returned (process_jsonl sample_loads
                [object_line tweet_april; object_line retweet_may])
              = Done (include included_may (include included_april initial_stats))).
  { unfold process_jsonl. by rewrite returned_cons, Ka, returned_cons, Km. }
  split; [exact H|].
  exact (proj1 (proj2 (statistics_bounded_by_total sample_loads _ _ H))).
Defined.

(** * The writers *)

(** ** [most_common] *)

Lemma insert_by_count_perm x l : insert_by_count x l ≡ₚ x :: l.
Proof.
  induction l as [|y l IH]; cbn; [done|].
  destruct (y.2 <=? x.2)%nat; [done|].
  rewrite IH. apply perm_swap.
Qed.

Lemma sorted_by_count_perm l : sorted_by_count l ≡ₚ l.
Proof.
  induction l as [|x l IH]; cbn; [done|].
  by rewrite insert_by_count_perm, IH.
Qed.

Lemma insert_by_count_sorted x l :
  StronglySorted (λ a b, (b.2 ≤ a.2)%nat) l →
  StronglySorted (λ a b, (b.2 ≤ a.2)%nat) (insert_by_count x l).
Proof.
  induction 1 as [|y l Hs IH Hy]; cbn.
  - repeat constructor.
  - destruct (y.2 <=? x.2)%nat eqn:E.
    + apply Nat.leb_le in E. constructor; [by constructor|].
      constructor; [done|].
      eapply Forall_impl; [exact Hy|]. cbn. intros; lia.
    + apply Nat.leb_gt in E. constructor; [done|].
      rewrite insert_by_count_perm. constructor; [lia|done].
Qed.

Lemma insert_by_count_filter x l n :
  StronglySorted (λ a b, (b.2 ≤ a.2)%nat) l →
  filter (λ y, y.2 = n) (insert_by_count x l) = filter (λ y, y.2 = n) (x :: l).
Proof.
  induction 1 as [|y l Hs IH Hy]; cbn; [done|].
  destruct (y.2 <=? x.2)%nat eqn:E; [done|].
  apply Nat.leb_gt in E.
  rewrite (filter_cons _ y), IH, !filter_cons.
  destruct (decide (y.2 = n)), (decide (x.2 = n)); try done. lia.
Qed.

Lemma sorted_by_count_sorted l :
  StronglySorted (λ a b, (b.2 ≤ a.2)%nat) (sorted_by_count l).
Proof.
  induction l as [|x l IH]; cbn; [constructor|].
  by apply insert_by_count_sorted.
Qed.

Lemma sorted_by_count_filter l n :
  filter (λ y, y.2 = n) (sorted_by_count l) = filter (λ y, y.2 = n) l.
Proof.
  induction l as [|x l IH]; [done|].
  change (sorted_by_count (x :: l)) with (insert_by_count x (sorted_by_count l)).
  rewrite insert_by_count_filter by apply sorted_by_count_sorted.
  by rewrite !filter_cons, IH.
Qed.

(** X10: [most_common] lists every language of the table once with its count,
    largest count first, and languages with the same count in the order the
    table iterates them. *)
Theorem most_common_is_a_stable_descending_sort
    (counter_items : gmap pykey nat → list (pykey * nat)) (c : gmap pykey nat) :
  counter_items c ≡ₚ map_to_list c →
  most_common counter_items c ≡ₚ map_to_list c
  ∧ StronglySorted (λ a b, (b.2 ≤ a.2)%nat) (most_common counter_items c)
  ∧ ∀ n, filter (λ y, y.2 = n) (most_common counter_items c)
         = filter (λ y, y.2 = n) (counter_items c).
Proof.
  intros Hp. unfold most_common. split_and!.
  - by rewrite sorted_by_count_perm.
  - apply sorted_by_count_sorted.
  - apply sorted_by_count_filter.
Qed.

Lemma most_common_is_a_stable_descending_sort_witness :
  let c : gmap pykey nat := {[ KStr "en" := 2%nat; KStr "fr" := 5%nat ]} in
  map_to_list c ≡ₚ map_to_list c
  ∧ StronglySorted (λ a b, (b.2 ≤ a.2)%nat) (most_common map_to_list c).
Proof.
  split; [reflexivity|].
  apply (most_common_is_a_stable_descending_sort map_to_list). reflexivity.
Defined.

(** ** Paths *)

Lemma string_app_assoc (a b c : string) : (a +:+ b) +:+ c = a +:+ b +:+ c.
Proof.
  induction a as [|x a IH]; [done|].
  change (String x ((a +:+ b) +:+ c) = String x (a +:+ b +:+ c)). by rewrite IH.
Qed.

Lemma path_join_relative a b :
  starts_with_sep b = false → path_join a b = join_prefix a +:+ b.
Proof.
  intros H. unfold path_join, join_prefix. rewrite H.
  destruct a as [|c a]; [done|].
  destruct (ends_with_sep (String c a)); [done|]. by rewrite string_app_assoc.
Qed.

Lemma starts_with_sep_app k s :
  starts_with_sep s = false → starts_with_sep k = false →
  starts_with_sep (k +:+ s) = false.
Proof. intros Hs Hk. by destruct k. Qed.

Lemma month_path_inj dir k1 k2 :
  starts_with_sep k1 = false → starts_with_sep k2 = false →
  path_join dir (k1 +:+ ".txt") = path_join dir (k2 +:+ ".txt") → k1 = k2.
Proof.
  intros H1 H2.
  rewrite !path_join_relative by by apply starts_with_sep_app.
  intros H%(inj (String.app _)).
  by apply string_app_inj_tail in H as [? _].
Qed.

(** ** [write_monthly_files] *)

Section MonthlyFiles.

Variable id_text : string → pykey → string.
Variable set_iter : string → gset pykey → list pykey.

Lemma month_events_writes dir month ids :
  month_events id_text set_iter dir (month, ids)
  = Open (path_join dir (month +:+ ".txt"))
    :: (Write (path_join dir (month +:+ ".txt")) <$> month_lines id_text month (set_iter month ids))
    ++ [Close (path_join dir (month +:+ ".txt"))].
Proof. unfold month_events, month_lines. cbn. by rewrite <- list_fmap_compose. Qed.

Lemma written_app path a b :
  written path (a ++ b) = written path a ++ written path b.
Proof. apply omap_app. Qed.

Lemma written_writes path p texts :
  written path (Write p <$> texts) = if decide (p = path) then texts else [].
Proof.
  induction texts as [|t texts IH]; cbn; [by destruct (decide _)|].
  unfold written in IH. rewrite IH. by destruct (decide (p = path)).
Qed.

Lemma written_month_events path dir month ids :
  written path (month_events id_text set_iter dir (month, ids))
  = if decide (path_join dir (month +:+ ".txt") = path)
    then month_lines id_text month (set_iter month ids) else [].
Proof.
  rewrite month_events_writes.
  change (written path (Open ?p :: ?l)) with (written path l).
  rewrite written_app, written_writes. cbn.
  destruct (decide _); by rewrite ?app_nil_r.
Qed.

Lemma written_other_months path dir (items : list (string * gset pykey)) :
  (∀ item, item ∈ items → path_join dir (item.1 +:+ ".txt") ≠ path) →
  written path (items ≫= month_events id_text set_iter dir) = [].
Proof.
  induction items as [|[month ids] items IH]; intros H; [done|].
  change (written path (month_events id_text set_iter dir (month, ids) ++ (items ≫= month_events id_text set_iter dir)) = []).
  rewrite written_app, written_month_events, IH.
  - rewrite decide_False; [done|]. apply (H (month, ids)). by left.
  - intros item Hin. apply H. by right.
Qed.

Lemma written_own_month dir (items : list (string * gset pykey)) key ids :
  NoDup items.*1 →
  (∀ item, item ∈ items → starts_with_sep item.1 = false) →
  (key, ids) ∈ items →
  written (path_join dir (key +:+ ".txt")) (items ≫= month_events id_text set_iter dir)
  = month_lines id_text key (set_iter key ids).
Proof.
  induction items as [|[month ids'] items IH]; intros Hn Hs Hin.
  - by apply elem_of_nil in Hin.
  - change (written (path_join dir (key +:+ ".txt"))
              (month_events id_text set_iter dir (month, ids') ++ (items ≫= month_events id_text set_iter dir))
            = month_lines id_text key (set_iter key ids)).
    rewrite fmap_cons in Hn. apply list.NoDup_cons in Hn as [Hfresh Hn].
    assert (Hkey : starts_with_sep key = false) by apply (Hs _ Hin).
    rewrite written_app, written_month_events.
    apply elem_of_cons in Hin as [[= <- <-]|Hin].
    + rewrite decide_True by done. rewrite written_other_months; [by rewrite app_nil_r|].
      intros [k b] Hk E. cbn in E. apply Hfresh.
      apply month_path_inj in E as ->; [|apply (Hs (k, b)); by right|done].
      apply list_elem_of_fmap. by exists (key, b).
    + rewrite decide_False.
      * cbn. apply IH; [done| |done]. intros item ?. apply Hs. by right.
      * intros E. apply Hfresh.
        apply month_path_inj in E as ->; [|apply (Hs (month, ids')); by left|done].
        apply list_elem_of_fmap. by exists (key, ids).
Qed.

Lemma opened_month_events dir (items : list (string * gset pykey)) :
  opened (items ≫= month_events id_text set_iter dir)
  = (λ item, path_join dir (item.1 +:+ ".txt")) <$> items.
Proof.
  induction items as [|[month ids] items IH]; [done|].
  change (opened (month_events id_text set_iter dir (month, ids) ++ (items ≫= month_events id_text set_iter dir))
          = path_join dir (month +:+ ".txt")
            :: ((λ item, path_join dir (item.1 +:+ ".txt")) <$> items)).
  unfold opened in *. rewrite omap_app, IH, month_events_writes. cbn.
  f_equal. rewrite omap_app. cbn. rewrite app_nil_r.
  assert (H : ∀ p (texts : list string),
            omap (λ ev, match ev with Open q => Some q | _ => None end)
                 (Write p <$> texts) = []).
  { intros p texts. by induction texts. }
  by rewrite H.
Qed.

Lemma files_closed_writes p texts rest :
  files_closed (Some p) ((Write p <$> texts) ++ Close p :: rest)
  = files_closed None rest.
Proof.
  induction texts as [|t texts IH]; cbn.
  - by rewrite bool_decide_eq_true_2.
  - by rewrite bool_decide_eq_true_2.
Qed.

Lemma files_closed_month_events dir (items : list (string * gset pykey)) rest :
  files_closed None ((items ≫= month_events id_text set_iter dir) ++ rest) = files_closed None rest.
Proof.
  induction items as [|[month ids] items IH]; [done|].
  change (files_closed None
            ((month_events id_text set_iter dir (month, ids) ++ (items ≫= month_events id_text set_iter dir)) ++ rest)
          = files_closed None rest).
  rewrite month_events_writes. cbn.
  rewrite <- !app_assoc. cbn. by rewrite files_closed_writes.
Qed.

End MonthlyFiles.

Lemma write_monthly_files_events id_text set_iter dict_items
    (m : gmap string (gset pykey)) dir :
  write_monthly_files id_text set_iter dict_items m dir
  = Makedirs dir :: (dict_items m ≫= month_events id_text set_iter dir).
Proof. reflexivity. Qed.

Section MonthlyFilesOfAMapping.

Variable id_text : string → pykey → string.
Variable set_iter : string → gset pykey → list pykey.
Variable dict_items : gmap string (gset pykey) → list (string * gset pykey).
Variable m : gmap string (gset pykey).
Variable dir : string.

Hypothesis set_iter_elements : ∀ month s, set_iter month s ≡ₚ elements s.
Hypothesis dict_items_map : dict_items m ≡ₚ map_to_list m.
Hypothesis relative_keys : ∀ key ids, m !! key = Some ids → starts_with_sep key = false.

Lemma dict_items_lookup item : item ∈ dict_items m → m !! item.1 = Some item.2.
Proof.
  destruct item as [k b]. rewrite dict_items_map. by intros ?%elem_of_map_to_list.
Qed.

Lemma opened_write_monthly_files :
  opened (write_monthly_files id_text set_iter dict_items m dir)
  = (λ key, path_join dir (key +:+ ".txt")) <$> (dict_items m).*1.
Proof.
  rewrite write_monthly_files_events.
  change (opened (Makedirs dir :: ?l)) with (opened l).
  rewrite opened_month_events. by rewrite <- list_fmap_compose.
Qed.


Lemma written_write_monthly_files key ids :
  m !! key = Some ids →
  written (path_join dir (key +:+ ".txt"))
          (write_monthly_files id_text set_iter dict_items m dir)
  ≡ₚ month_lines id_text key (elements ids).
Proof.
  intros Hk. rewrite write_monthly_files_events.
  change (written ?p (Makedirs dir :: ?l)) with (written p l).
  rewrite (written_own_month _ _ _ _ key ids).
  - unfold month_lines. by rewrite set_iter_elements.
  - rewrite dict_items_map. apply NoDup_fst_map_to_list.
  - intros item H. eapply relative_keys. by apply dict_items_lookup.
  - rewrite dict_items_map. by apply elem_of_map_to_list.
Qed.

Lemma written_outside_monthly_files p :
  p ∉ opened (write_monthly_files id_text set_iter dict_items m dir) →
  written p (write_monthly_files id_text set_iter dict_items m dir) = [].
Proof.
  rewrite opened_write_monthly_files, write_monthly_files_events. intros Hp.
  change (written p (Makedirs dir :: ?l)) with (written p l).
  apply written_other_months. intros item Hitem E. apply Hp.
  apply list_elem_of_fmap. exists item.1. split; [done|].
  apply list_elem_of_fmap. by exists item.
Qed.

End MonthlyFilesOfAMapping.

Lemma files_closed_write_monthly_files id_text set_iter dict_items
    (m : gmap string (gset pykey)) dir rest :
  files_closed None (write_monthly_files id_text set_iter dict_items m dir ++ rest)
  = files_closed None rest.
Proof.
  rewrite write_monthly_files_events. cbn [app files_closed].
  apply files_closed_month_events.
Qed.



(** ** [write_statistics] *)

Lemma stats_paths_differ dir :
  path_join dir "tweets_by_language.txt" ≠ path_join dir "general_stats.txt".
Proof.
  rewrite !path_join_relative by done. intros H%(inj (String.app _)). discriminate.
Qed.

Lemma written_with_open path p (block : list string * outcome unit) :
  written path (with_open p block).1 = if decide (p = path) then block.1 else [].
Proof.
  unfold with_open. cbn [fst].
  change (written path (Open p :: ?l)) with (written path l).
  rewrite written_app, written_writes. cbn.
  destruct (decide _); by rewrite ?app_nil_r.
Qed.

Lemma opened_with_open p (block : list string * outcome unit) :
  opened (with_open p block).1 = [p].
Proof.
  unfold with_open, opened. cbn. f_equal. rewrite omap_app. cbn.
  rewrite app_nil_r. by induction (block.1).
Qed.

Lemma files_closed_with_open p (block : list string * outcome unit) rest :
  files_closed None ((with_open p block).1 ++ rest) = files_closed None rest.
Proof.
  unfold with_open. cbn. rewrite <- app_assoc. cbn. apply files_closed_writes.
Qed.

Section Statistics.

Variable lang_text : pykey → string.
Variable counter_items : gmap pykey nat → list (pykey * nat).
Variable strftime_Y : Z → string.
Variable dir : string.
Variable total : nat.
Variable authors : gset pykey.
Variable langs : gmap pykey nat.

Local Abbreviation stats_events first last :=
  (write_statistics lang_text counter_items strftime_Y dir total authors langs
     first last).

Local Abbreviation gs := (path_join dir "general_stats.txt").
Local Abbreviation tl := (path_join dir "tweets_by_language.txt").

Lemma write_statistics_unfold first last :
  stats_events first last =
  let block := general_stats strftime_Y total authors first last in
  match block.2 with
  | Raised e => (Makedirs dir :: (with_open gs block).1, Raised e)
  | Done _ =>
      (Makedirs dir :: (with_open gs block).1
         ++ (with_open tl (language_lines lang_text counter_items langs, Done tt)).1,
       Done tt)
  end.
Proof.
  unfold write_statistics. cbv zeta.
  destruct (general_stats strftime_Y total authors first last) as [texts [[]|e]]; done.
Qed.

Lemma general_stats_result first last :
  (general_stats strftime_Y total authors first last).2
  = match first, last with
    | Some _, Some _ => Done tt
    | _, _ => Raised AttributeError
    end.
Proof. by destruct first, last. Qed.

Lemma write_statistics_result first last :
  (stats_events first last).2
  = match first, last with
    | Some _, Some _ => Done tt
    | _, _ => Raised AttributeError
    end.
Proof.
  rewrite write_statistics_unfold. cbv zeta. rewrite general_stats_result.
  by destruct first, last.
Qed.

Lemma written_general_stats first last :
  written gs (stats_events first last).1
  = (general_stats strftime_Y total authors first last).1.
Proof.
  rewrite write_statistics_unfold. cbv zeta.
  destruct (general_stats strftime_Y total authors first last).2 eqn:E; cbn [fst].
  - change (written ?p (Makedirs dir :: ?l)) with (written p l).
    rewrite written_app, !written_with_open.
    rewrite decide_True by done. rewrite decide_False by apply stats_paths_differ.
    by rewrite app_nil_r.
  - change (written ?p (Makedirs dir :: ?l)) with (written p l).
    rewrite written_with_open. by rewrite decide_True.
Qed.

Lemma written_languages first last :
  written tl (stats_events first last).1
  = match first, last with
    | Some _, Some _ => language_lines lang_text counter_items langs
    | _, _ => []
    end.
Proof.
  rewrite write_statistics_unfold. cbv zeta. rewrite general_stats_result.
  assert (gs ≠ tl) by (intros E; by apply (stats_paths_differ dir)).
  destruct first, last; cbn [fst];
    change (written ?p (Makedirs dir :: ?l)) with (written p l);
    rewrite ?written_app, !written_with_open;
    rewrite decide_False by done; rewrite ?decide_True by done; done.
Qed.

Lemma opened_write_statistics first last :
  opened (stats_events first last).1
  = match first, last with
    | Some _, Some _ => [gs; tl]
    | _, _ => [gs]
    end.
Proof.
  rewrite write_statistics_unfold. cbv zeta. rewrite general_stats_result.
  destruct first, last; cbn [fst];
    change (opened (Makedirs dir :: ?l)) with (opened l);
    unfold opened; rewrite ?omap_app; fold (opened);
    by rewrite !opened_with_open.
Qed.

Lemma written_outside_statistics p first last :
  p ≠ gs → p ≠ tl → written p (stats_events first last).1 = [].
Proof.
  intros H1 H2. rewrite write_statistics_unfold. cbv zeta.
  destruct (general_stats strftime_Y total authors first last).2; cbn [fst];
    change (written ?p (Makedirs dir :: ?l)) with (written p l);
    rewrite ?written_app, !written_with_open, !decide_False by done; done.
Qed.

Lemma files_closed_write_statistics first last rest :
  files_closed None ((stats_events first last).1 ++ rest) = files_closed None rest.
Proof.
  rewrite write_statistics_unfold. cbv zeta.
  destruct (general_stats strftime_Y total authors first last).2; cbn [fst app files_closed].
  - rewrite <- app_assoc. by rewrite !files_closed_with_open.
  - by rewrite files_closed_with_open.
Qed.

End Statistics.

(** X12: [write_statistics] needs both dates.  With both it writes the four lines
    of [general_stats.txt], then one line per language, in the order of
    [most_common], to [tweets_by_language.txt].  When the first date is
    [None] it raises [AttributeError] with only the two count lines written,
    when only the last is [None] with three lines written; the language file
    is then never opened.  The file it has open is closed either way. *)
Theorem write_statistics_needs_both_dates
    (lang_text : pykey → string)
    (counter_items : gmap pykey nat → list (pykey * nat))
    (strftime_Y : Z → string) (dir : string) (total : nat)
    (authors : gset pykey) (langs : gmap pykey nat)
    (first last : option datetime) :
  let run := write_statistics lang_text counter_items strftime_Y dir total
               authors langs first last in
  let gs := path_join dir "general_stats.txt" in
  let tl := path_join dir "tweets_by_language.txt" in
  let counts :=
    ["Total tweets: " +:+ pretty total +:+ newline;
     "Total unique authors: " +:+ pretty (size authors) +:+ newline] in
  match first, last with
  | Some f, Some l =>
      run.2 = Done tt
      ∧ opened run.1 = [gs; tl]
      ∧ written gs run.1
        = counts ++ ["First tweet date: " +:+ strftime strftime_Y f +:+ newline;
                     "Last tweet date: " +:+ strftime strftime_Y l +:+ newline]
      ∧ written tl run.1 = language_lines lang_text counter_items langs
  | Some f, None =>
      run.2 = Raised AttributeError
      ∧ opened run.1 = [gs]
      ∧ written gs run.1
        = counts ++ ["First tweet date: " +:+ strftime strftime_Y f +:+ newline]
      ∧ written tl run.1 = []
  | None, _ =>
      run.2 = Raised AttributeError
      ∧ opened run.1 = [gs]
      ∧ written gs run.1 = counts
      ∧ written tl run.1 = []
  end
  ∧ files_closed None run.1 = true.
Proof.
  cbv zeta. split.
  - pose proof (write_statistics_result lang_text counter_items strftime_Y dir total
                  authors langs first last) as H1.
    pose proof (opened_write_statistics lang_text counter_items strftime_Y dir total
                  authors langs first last) as H2.
    pose proof (written_general_stats lang_text counter_items strftime_Y dir total
                  authors langs first last) as H3.
    pose proof (written_languages lang_text counter_items strftime_Y dir total
                  authors langs first last) as H4.
    destruct first as [f|], last as [l|]; by rewrite H1, H2, H3, H4.
  - rewrite <- (app_nil_r (write_statistics _ _ _ _ _ _ _ _ _).1).
    by rewrite files_closed_write_statistics.
Qed.

(** * [main] *)

Lemma month_key_relative date : starts_with_sep (month_key_of date) = false.
Proof. reflexivity. Qed.

Lemma returned_keys_relative json_loads lines r key ids :
  returned (process_jsonl json_loads lines) = Done r →
  monthly_tweets r !! key = Some ids →
  starts_with_sep key = false.
Proof.
  intros [_ ->]%returned_done Hk.
  assert (Hne : ids ≠ ∅).
  { eapply (buckets_nonempty_foldl _ initial_stats); [|done].
    intros k b. cbn. by rewrite lookup_empty. }
  apply set_choose_L in Hne as [x Hx].
  destruct (proj1 (bucket_foldl (included json_loads lines) initial_stats key x))
    as [(b & E & _)|(t & _ & _ & <-)].
  - by exists ids.
  - cbn in E. by rewrite lookup_empty in E.
  - apply month_key_relative.
Qed.

Lemma returned_dates json_loads lines r :
  returned (process_jsonl json_loads lines) = Done r →
  (total_tweets r = 0%nat ∧ r = initial_stats)
  ∨ ((0 < total_tweets r)%nat
     ∧ is_Some (first_tweet_date r) ∧ is_Some (last_tweet_date r)).
Proof.
  intros [_ ->]%returned_done. rewrite total_foldl.
  destruct (included json_loads lines) as [|t ts] eqn:E; [by left|right].
  split; [cbn; lia|].
  destruct (first_foldl (t :: ts) initial_stats) as (_ & F & _).
  destruct (last_foldl (t :: ts) initial_stats) as (_ & L & _).
  destruct (F t) as (f & -> & _); [by left|].
  destruct (L t) as (l & -> & _); [by left|]. by split.
Qed.

Lemma written_prints p texts : written p (Print <$> texts) = [].
Proof. by induction texts. Qed.

Lemma opened_prints texts : opened (Print <$> texts) = [].
Proof. by induction texts. Qed.

Lemma opened_app a b : opened (a ++ b) = opened a ++ opened b.
Proof. apply omap_app. Qed.

Lemma files_closed_prints texts rest :
  files_closed None ((Print <$> texts) ++ rest) = files_closed None rest.
Proof. by induction texts. Qed.

Section Main.

Variable id_text : string → pykey → string.
Variable lang_text : pykey → string.
Variable set_iter : string → gset pykey → list pykey.
Variable dict_items : gmap string (gset pykey) → list (string * gset pykey).
Variable counter_items : gmap pykey nat → list (pykey * nat).
Variable strftime_Y : Z → string.
Variable json_loads : string → option pyval.

Local Abbreviation main_on lines :=
  (main id_text lang_text set_iter dict_items counter_items strftime_Y json_loads lines).

Local Abbreviation reading lines :=
  (Print "Processing JSONL file..." :: Read input_file
   :: (Print <$> stdout (process_jsonl json_loads lines))).

Local Abbreviation monthly_of r :=
  (write_monthly_files id_text set_iter dict_items (monthly_tweets r)
     "datasets/******/monthly_tweet_ids").

Local Abbreviation statistics_of r :=
  (write_statistics lang_text counter_items strftime_Y output_dir
     (total_tweets r) (unique_authors r) (tweets_by_language r)
     (first_tweet_date r) (last_tweet_date r)).

Lemma main_raised lines e :
  returned (process_jsonl json_loads lines) = Raised e →
  main_on lines = (reading lines, Raised e).
Proof. unfold main. cbv zeta. by intros ->. Qed.

Lemma main_done lines r :
  returned (process_jsonl json_loads lines) = Done r →
  main_on lines
  = (reading lines
     ++ (Print "Writing monthly files..." :: monthly_of r)
     ++ (Print "Writing statistics..." :: (statistics_of r).1)
     ++ match (statistics_of r).2 with
        | Done _ => [Print "Processing complete!"]
        | Raised _ => []
        end,
     (statistics_of r).2).
Proof.
  unfold main. cbv zeta. intros ->.
  destruct (write_statistics _ _ _ _ _ _ _ _ _) as [events [[]|e]]; cbn [fst snd].
  - done.
  - by rewrite app_nil_r.
Qed.

Lemma main_result lines r :
  returned (process_jsonl json_loads lines) = Done r →
  (main_on lines).2
  = if decide (total_tweets r = 0%nat) then Raised AttributeError else Done tt.
Proof.
  intros H. rewrite (main_done _ _ H). cbn [snd].
  rewrite write_statistics_result.
  destruct (returned_dates _ _ _ H) as [[Hz ->]|(Hpos & [f ->] & [l ->])].
  - done.
  - rewrite decide_False by lia. done.
Qed.

Lemma files_closed_main lines : files_closed None (main_on lines).1 = true.
Proof.
  destruct (returned (process_jsonl json_loads lines)) as [r|e] eqn:H.
  - rewrite (main_done _ _ H). cbn [fst app files_closed].
    rewrite files_closed_prints. cbn [files_closed].
    rewrite files_closed_write_monthly_files. cbn [files_closed].
    rewrite files_closed_write_statistics. by destruct (_.2).
  - rewrite (main_raised _ _ H). cbn [fst files_closed].
    rewrite <- (app_nil_r (Print <$> _)). by rewrite files_closed_prints.
Qed.

End Main.

Section MainWrites.

Variable id_text : string → pykey → string.
Variable lang_text : pykey → string.
Variable set_iter : string → gset pykey → list pykey.
Variable dict_items : gmap string (gset pykey) → list (string * gset pykey).
Variable counter_items : gmap pykey nat → list (pykey * nat).
Variable strftime_Y : Z → string.
Variable json_loads : string → option pyval.

Hypothesis set_iter_elements : ∀ month s, set_iter month s ≡ₚ elements s.
Hypothesis dict_items_map : ∀ m, dict_items m ≡ₚ map_to_list m.

Variable lines : list string.
Variable r : stats.
Hypothesis run_returns : returned (process_jsonl json_loads lines) = Done r.

Local Abbreviation events :=
  (main id_text lang_text set_iter dict_items counter_items strftime_Y json_loads lines).1.

Local Abbreviation monthly_events :=
  (write_monthly_files id_text set_iter dict_items (monthly_tweets r)
     "datasets/******/monthly_tweet_ids").

Local Abbreviation statistics_events :=
  (write_statistics lang_text counter_items strftime_Y output_dir
     (total_tweets r) (unique_authors r) (tweets_by_language r)
     (first_tweet_date r) (last_tweet_date r)).1.

Lemma month_file_path key :
  starts_with_sep key = false →
  path_join "datasets/******/monthly_tweet_ids" (key +:+ ".txt")
  = "datasets/******/monthly_tweet_ids/" +:+ key +:+ ".txt".
Proof. intros H. by rewrite path_join_relative by by apply starts_with_sep_app. Qed.

Lemma written_main p :
  written p events = written p monthly_events ++ written p statistics_events.
Proof.
  rewrite (main_done _ _ _ _ _ _ _ _ _ run_returns). cbn [fst app].
  change (written p (Print ?a :: Read ?b :: ?l)) with (written p l).
  rewrite written_app, written_prints. cbn [app].
  change (written p (Print ?a :: ?l)) with (written p l).
  rewrite written_app. f_equal.
  change (written p (Print ?a :: ?l)) with (written p l).
  rewrite written_app.
  destruct (_.2); by rewrite app_nil_r.
Qed.

Lemma written_main_month_file key ids :
  monthly_tweets r !! key = Some ids →
  written ("datasets/******/monthly_tweet_ids/" +:+ key +:+ ".txt") events
  ≡ₚ month_lines id_text key (elements ids).
Proof.
  intros Hk.
  assert (Hrel : starts_with_sep key = false)
    by by eapply returned_keys_relative.
  rewrite written_main, written_outside_statistics.
  - rewrite app_nil_r, <- month_file_path by done.
    apply written_write_monthly_files; [done..| |done].
    intros k b. by eapply returned_keys_relative.
  - intros E. vm_compute in E. discriminate E.
  - intros E. vm_compute in E. discriminate E.
Qed.

Lemma statistics_file_not_monthly name :
  (∀ key, "datasets/******/monthly_tweet_ids/" +:+ key +:+ ".txt"
          ≠ path_join output_dir name) →
  written (path_join output_dir name) monthly_events = [].
Proof.
  intros Hname. apply written_outside_monthly_files.
  rewrite opened_write_monthly_files.
  intros [k [E [[k' b] [-> Hin]]%list_elem_of_fmap]]%list_elem_of_fmap.
  apply (Hname k'). rewrite E. symmetry. apply month_file_path.
  eapply returned_keys_relative; [done|].
  by apply (dict_items_lookup _ _ (dict_items_map _)) in Hin.
Qed.

Lemma written_main_general_stats :
  written "datasets/******/general_stats.txt" events
  = (general_stats strftime_Y (total_tweets r) (unique_authors r)
       (first_tweet_date r) (last_tweet_date r)).1.
Proof.
  rewrite written_main.
  change "datasets/******/general_stats.txt"
    with (path_join output_dir "general_stats.txt").
  rewrite statistics_file_not_monthly.
  - apply written_general_stats.
  - intros key E. vm_compute in E. discriminate E.
Qed.

Lemma written_main_languages :
  written "datasets/******/tweets_by_language.txt" events
  = match first_tweet_date r, last_tweet_date r with
    | Some _, Some _ => language_lines lang_text counter_items (tweets_by_language r)
    | _, _ => []
    end.
Proof.
  rewrite written_main.
  change "datasets/******/tweets_by_language.txt"
    with (path_join output_dir "tweets_by_language.txt").
  rewrite statistics_file_not_monthly.
  - apply written_languages.
  - intros key E. vm_compute in E. discriminate E.
Qed.

End MainWrites.

(** X13: [main] ends as follows.  When the aggregation raises, [main] raises the
    same exception having only printed: it makes no directory and opens no
    file.  When the aggregation returns a total of 0, [main] raises
    [AttributeError] (from [write_statistics], both dates being [None]);
    otherwise it completes.  In every case each file it opened is closed. *)
Theorem main_outcome
    (id_text : string → pykey → string) (lang_text : pykey → string)
    (set_iter : string → gset pykey → list pykey)
    (dict_items : gmap string (gset pykey) → list (string * gset pykey))
    (counter_items : gmap pykey nat → list (pykey * nat))
    (strftime_Y : Z → string) (json_loads : string → option pyval)
    (lines : list string) :
  let run := process_jsonl json_loads lines in
  let result :=
    main id_text lang_text set_iter dict_items counter_items strftime_Y
         json_loads lines in
  match returned run with
  | Raised e =>
      result = (Print "Processing JSONL file..." :: Read input_file
                :: (Print <$> stdout run), Raised e)
  | Done r =>
      result.2 = if decide (total_tweets r = 0%nat)
                 then Raised AttributeError else Done tt
  end
  ∧ files_closed None result.1 = true.
Proof.
  cbv zeta. split; [|apply files_closed_main].
  destruct (returned (process_jsonl json_loads lines)) as [r|e] eqn:H.
  - by apply main_result.
  - by apply main_raised.
Qed.

Lemma main_outcome_witness :
  (sample_main [object_line tweet_bad_date; object_line tweet_april]).2
  = Raised ValueError
  ∧ (sample_main [garbage_line]).2 = Raised AttributeError
  ∧ (sample_main [object_line tweet_april]).2 = Done tt.
Proof.
  split_and!.
  - pose proof (proj1 (main_outcome (λ _, sample_text) sample_text (λ _, elements) map_to_list
                         map_to_list pretty sample_loads
                         [object_line tweet_bad_date; object_line tweet_april])) as H.
    unfold sample_main. by rewrite H.
  - exact (proj1 (main_outcome (λ _, sample_text) sample_text (λ _, elements) map_to_list
                    map_to_list pretty sample_loads [garbage_line])).
  - exact (proj1 (main_outcome (λ _, sample_text) sample_text (λ _, elements) map_to_list
                    map_to_list pretty sample_loads [object_line tweet_april])).
Defined.

(** X14: [main] on an input with no included line (an empty file, or only lines
    that are skipped): after the diagnostics it makes the directory of the
    monthly files and writes none, makes the output directory, writes the
    two count lines to [general_stats.txt], closes it and raises
    [AttributeError].  The two date lines and [tweets_by_language.txt] are
    not written and ["Processing complete!"] is not printed. *)
Theorem main_on_nothing_included
    (id_text : string → pykey → string) (lang_text : pykey → string)
    (set_iter : string → gset pykey → list pykey)
    (dict_items : gmap string (gset pykey) → list (string * gset pykey))
    (counter_items : gmap pykey nat → list (pykey * nat))
    (strftime_Y : Z → string) (json_loads : string → option pyval)
    (lines : list string) (r : stats) :
  dict_items ∅ ≡ₚ map_to_list ∅ →
  returned (process_jsonl json_loads lines) = Done r →
  total_tweets r = 0%nat →
  main id_text lang_text set_iter dict_items counter_items strftime_Y
       json_loads lines
  = ([Print "Processing JSONL file..."; Read "datasets/******.jsonl"]
     ++ (Print <$> stdout (process_jsonl json_loads lines))
     ++ [Print "Writing monthly files...";
         Makedirs "datasets/******/monthly_tweet_ids";
         Print "Writing statistics...";
         Makedirs "datasets/******";
         Open "datasets/******/general_stats.txt";
         Write "datasets/******/general_stats.txt" ("Total tweets: 0" +:+ newline);
         Write "datasets/******/general_stats.txt"
               ("Total unique authors: 0" +:+ newline);
         Close "datasets/******/general_stats.txt"],
     Raised AttributeError).
Proof.
  intros Hd Hr Hz.
  destruct (returned_dates _ _ _ Hr) as [[_ ->]|[Hpos _]]; [|lia].
  rewrite (main_done _ _ _ _ _ _ _ _ _ Hr).
  rewrite write_monthly_files_events.
  rewrite map_to_list_empty in Hd. apply Permutation_nil_r in Hd.
  cbn [monthly_tweets initial_stats]. rewrite Hd. reflexivity.
Qed.

Lemma main_on_nothing_included_witness :
  returned (process_jsonl sample_loads [garbage_line; object_line tweet_no_date])
  = Done initial_stats
  ∧ opened (sample_main [garbage_line; object_line tweet_no_date]).1
    = ["datasets/******/general_stats.txt"].
Proof.
  assert (H : returned (process_jsonl sample_loads
                          [garbage_line; object_line tweet_no_date])
              = Done initial_stats) by reflexivity.
  split; [exact H|].
  unfold sample_main.
  rewrite (main_on_nothing_included _ _ _ map_to_list _ _ sample_loads _ _
             (reflexivity _) H eq_refl).
  reflexivity.
Defined.

(** X15: [main] on an input whose aggregation returns a total above 0 completes:
    for every month bucket the file
    [datasets/******/monthly_tweet_ids/<key>.txt] gets one line per
    identifier of the bucket, [general_stats.txt] gets the two counts and
    the two dates, [tweets_by_language.txt] one line per language in the
    order of [most_common], and the last thing done is printing
    ["Processing complete!"]. *)
Theorem main_writes_all_results
    (id_text : string → pykey → string) (lang_text : pykey → string)
    (set_iter : string → gset pykey → list pykey)
    (dict_items : gmap string (gset pykey) → list (string * gset pykey))
    (counter_items : gmap pykey nat → list (pykey * nat))
    (strftime_Y : Z → string) (json_loads : string → option pyval)
    (lines : list string) (r : stats) :
  (∀ month s, set_iter month s ≡ₚ elements s) →
  (∀ m, dict_items m ≡ₚ map_to_list m) →
  returned (process_jsonl json_loads lines) = Done r →
  (0 < total_tweets r)%nat →
  let result :=
    main id_text lang_text set_iter dict_items counter_items strftime_Y
         json_loads lines in
  result.2 = Done tt
  ∧ (∀ key ids,
       monthly_tweets r !! key = Some ids →
       written ("datasets/******/monthly_tweet_ids/" +:+ key +:+ ".txt") result.1
       ≡ₚ month_lines id_text key (elements ids))
  ∧ (∃ first last,
       first_tweet_date r = Some first ∧ last_tweet_date r = Some last
       ∧ written "datasets/******/general_stats.txt" result.1
         = ["Total tweets: " +:+ pretty (total_tweets r) +:+ newline;
            "Total unique authors: " +:+ pretty (size (unique_authors r)) +:+ newline;
            "First tweet date: " +:+ strftime strftime_Y first +:+ newline;
            "Last tweet date: " +:+ strftime strftime_Y last +:+ newline])
  ∧ written "datasets/******/tweets_by_language.txt" result.1
    = language_lines lang_text counter_items (tweets_by_language r)
  ∧ last result.1 = Some (Print "Processing complete!").
Proof.
  intros Hset Hdict Hr Hpos. cbv zeta.
  destruct (returned_dates _ _ _ Hr) as [[Hz _]|(_ & [f Hf] & [l Hl])]; [lia|].
  split_and!.
  - rewrite (main_result _ _ _ _ _ _ _ _ _ Hr). by rewrite decide_False by lia.
  - intros key ids Hk.
    by apply (written_main_month_file _ _ _ _ _ _ _ Hset Hdict _ _ Hr).
  - exists f, l. split_and!; [done..|].
    rewrite (written_main_general_stats _ _ _ _ _ _ _ Hdict _ _ Hr). by rewrite Hf, Hl.
  - rewrite (written_main_languages _ _ _ _ _ _ _ Hdict _ _ Hr). by rewrite Hf, Hl.
  - rewrite (main_done _ _ _ _ _ _ _ _ _ Hr). cbn [fst].
    rewrite write_statistics_result, Hf, Hl.
    rewrite !app_assoc. apply last_snoc.
Qed.

Lemma main_writes_all_results_witness :
  let r := include included_april initial_stats in
  returned (process_jsonl sample_loads [object_line tweet_april]) = Done r
  ∧ (0 < total_tweets r)%nat
  ∧ (sample_main [object_line tweet_april]).2 = Done tt
  ∧ written "datasets/******/tweets_by_language.txt"
            (sample_main [object_line tweet_april]).1
    = language_lines sample_text map_to_list (tweets_by_language r).
Proof.
  destruct sample_kinds as (Ka & _).
  assert (H : returned (process_jsonl sample_loads [object_line tweet_april])
              = Done (include included_april initial_stats)).
  { unfold process_jsonl. by rewrite returned_cons, Ka. }
  assert (Hpos : (0 < total_tweets (include included_april initial_stats))%nat)
    by (cbn; lia).
  pose proof (main_writes_all_results (λ _, sample_text) sample_text (λ _, elements)
                map_to_list map_to_list pretty sample_loads _ _
                (λ _ _, reflexivity _) (λ _, reflexivity _) H Hpos) as (H1 & _ & _ & H4 & _).
  split; [exact H|]. split; [exact Hpos|]. split; [exact H1|exact H4].
Defined.
